(** * Workflow Dispatch Action: a model of [src/main.ts]

    The action is one asynchronous function, [run].  It reads its inputs,
    decodes the structured inputs, lists the workflows of a repository,
    locates one of them by name, id or file name, dispatches it and then
    tries to read back the id of the run that was triggered.

    The model is a shallow embedding.  Values that the source types as
    [any] are elements of [jsval]; the runner, the JavaScript engine and
    the provider are gathered in a record [World]; every observable effect
    ([core.info], [console.log], [core.setOutput], [core.setFailed], a page
    request, an [octokit.request]) is an [Event], and [run] returns the
    events in the order in which the source performs them. *)

From Stdlib Require Import String Ascii List ZArith Lia Bool.
From Stdlib Require Import DecimalString.
Import ListNotations.

Local Open Scope list_scope.
Local Open Scope string_scope.
Local Set Warnings "-register-all".

(** ** Strings *)

Module Str.

(** [String.prototype.endsWith(searchString)] with the default end
    position: the last [searchLength] units of [s] are compared with
    [searchString]; a search string longer than [s] gives [false]. *)
Definition endsWith (s searchString : string) : bool :=
  let len := String.length s in
  let searchLength := String.length searchString in
  if Nat.ltb len searchLength then false
  else substring (len - searchLength) searchLength s =? searchString.

(** [Number.prototype.toString()] on an integer that a number holds
    exactly (below 2^53 in absolute value, as the ids of workflows and
    runs and the status codes are): the decimal digits, with a leading
    minus sign below zero.  Larger numbers, for which JavaScript rounds
    and, from 10^21 on, prints an exponent, are outside the model. *)
Definition number_toString (n : Z) : string :=
  NilZero.string_of_int (Z.to_int n).

(** [Array.prototype.join(sep)] on strings. *)
Definition join (sep : string) (l : list string) : string :=
  String.concat sep l.

(** [String.prototype.split(sep)] for a one-character separator: the
    pieces between separators; there is always at least one piece. *)
Fixpoint split (sep : ascii) (s : string) : list string :=
  match s with
  | EmptyString => [EmptyString]
  | String c rest =>
      if Ascii.eqb c sep then EmptyString :: split sep rest
      else match split sep rest with
           | [] => [String c EmptyString]
           | piece :: pieces => String c piece :: pieces
           end
  end.

(** [s.includes(t)] as a proposition: [t] occurs somewhere in [s]. *)
Definition Contains (s t : string) : Prop :=
  exists before after, s = before ++ t ++ after.

(** The last unit of a string, if any. *)
Fixpoint last_unit (s : string) : option ascii :=
  match s with
  | EmptyString => None
  | String c EmptyString => Some c
  | String _ rest => last_unit rest
  end.

End Str.

(** ** Results of a computation that may throw

    Every value thrown in [run] is an [Error]; it is represented by its
    [message]. *)

Inductive result (A : Type) : Type :=
| Ok (a : A)
| Throw (message : string).
Arguments Ok {A} a.
Arguments Throw {A} message.

(** ** JavaScript values

    Only integer-valued numbers are represented; that is what workflow
    ids, run ids and HTTP status codes are. *)

Inductive jsval : Type :=
| JUndefined
| JNull
| JBool (b : bool)
| JNum (n : Z)
| JStr (s : string)
| JArr (elems : list jsval)
| JObj (fields : list (string * jsval)).

Module Js.

(** ToBoolean, as used by [if (x)], [!x], [a && b] and [a || b]. *)
Definition truthy (v : jsval) : bool :=
  match v with
  | JUndefined | JNull => false
  | JBool b => b
  | JNum n => negb (n =? 0)%Z
  | JStr s => negb (s =? "")
  | JArr _ | JObj _ => true
  end.

(** The string form of a value that has one: what [`${v}`] gives when it
    gives a string.  [run] uses it directly for [owner] and [repo] only,
    which are strings or [undefined]; elsewhere the interpolation goes
    through [template] below, which also says when there is no string
    form. *)
Fixpoint to_string (v : jsval) : string :=
  match v with
  | JUndefined => "undefined"
  | JNull => "null"
  | JBool true => "true"
  | JBool false => "false"
  | JNum n => Str.number_toString n
  | JStr s => s
  | JArr elems =>
      Str.join ","
        (map (fun e => match e with
                       | JUndefined | JNull => ""
                       | _ => to_string e
                       end) elems)
  | JObj _ => "[object Object]"
  end.

(** [fields] has a field named [k] of its own. *)
Definition has_key (k : string) (fields : list (string * jsval)) : bool :=
  existsb (fun kv => fst kv =? k) fields.

(** The message of the [TypeError] of an interpolation. *)
Definition no_primitive : string :=
  "Cannot convert object to primitive value".

(** ToString, as a template literal [`${v}`] applies it.  An object is
    converted by its [toString] method; an object with a field
    [toString] of its own hides the method of [Object.prototype] by a
    value that cannot be called, and the conversion throws a
    [TypeError].  An array joins the string forms of its elements,
    [undefined] and [null] counting as empty, and throws when one of
    them does. *)
Fixpoint template (v : jsval) : result string :=
  match v with
  | JUndefined => Ok "undefined"
  | JNull => Ok "null"
  | JBool true => Ok "true"
  | JBool false => Ok "false"
  | JNum n => Ok (Str.number_toString n)
  | JStr s => Ok s
  | JArr elems =>
      match
        (fix each (l : list jsval) : result (list string) :=
           match l with
           | [] => Ok []
           | e :: rest =>
               match
                 match e with
                 | JUndefined | JNull => Ok ""
                 | _ => template e
                 end
               with
               | Throw message => Throw message
               | Ok s =>
                   match each rest with
                   | Throw message => Throw message
                   | Ok ss => Ok (s :: ss)
                   end
               end
           end) elems
      with
      | Throw message => Throw message
      | Ok ss => Ok (Str.join "," ss)
      end
  | JObj fields =>
      if has_key "toString" fields then Throw no_primitive
      else Ok "[object Object]"
  end.

(** The nesting of arrays in a value. *)
Fixpoint depth (v : jsval) : nat :=
  match v with
  | JArr elems => S (fold_right (fun e n => Nat.max (depth e) n) 0 elems)
  | _ => 0
  end.

(** [v === 'lit']: strict equality with a string literal. *)
Definition strict_eq_str (v : jsval) (lit : string) : bool :=
  match v with
  | JStr s => s =? lit
  | _ => false
  end.

(** The value of the field [k]; an object lists each of its fields
    once, a field that it does not have reads as [undefined]. *)
Fixpoint lookup (k : string) (fields : list (string * jsval)) : jsval :=
  match fields with
  | [] => JUndefined
  | (k', v) :: rest => if k' =? k then v else lookup k rest
  end.

Definition is_mapping (v : jsval) : bool :=
  match v with
  | JObj _ => true
  | _ => false
  end.

End Js.

(** Property access [v.k] for a key that no prototype defines (the
    program reads [status], [workflow_url] and [id]): a [TypeError] on
    [undefined] and [null], the field of an object, [undefined] on any
    other value. *)
Definition get_prop (v : jsval) (k : string) : result jsval :=
  match v with
  | JUndefined =>
      Throw ("Cannot read properties of undefined (reading '" ++ k ++ "')")
  | JNull =>
      Throw ("Cannot read properties of null (reading '" ++ k ++ "')")
  | JObj fields => Ok (Js.lookup k fields)
  | _ => Ok JUndefined
  end.

(** ** Data of the action *)

(** [type Workflow = { id: number, name: string, path: string }] *)
Record Workflow : Type := mkWorkflow {
  id : Z;
  name : string;
  path : string
}.

(** The response of [octokit.request]: the HTTP status and the body. *)
Record Response : Type := mkResponse {
  status : Z;
  data : jsval
}.

(** The parameters merged into the list-workflows endpoint (line 46). *)
Record ListParams : Type := mkListParams {
  lp_owner : jsval;
  lp_repo : jsval;
  lp_ref : string;
  lp_inputs : jsval
}.

(** What the provider answers to the successive page requests of one
    listing: a page of workflows with or without a continuation, or a
    failure of the request. *)
Inductive Pages : Type :=
| PageFail (message : string)
| PageLast (items : list Workflow)
| PageMore (items : list Workflow) (next : Pages).

(** ** Observable effects *)

Inductive Event : Type :=
| Info (msg : string)                       (* core.info *)
| Debug (msg : string)                      (* core.debug of a literal *)
| DebugWorkflows (ws : list Workflow)       (* core.debug(JSON.stringify(workflows, null, 3)) *)
| Warning (msg : string)                    (* core.warning *)
| Log (msg : string)                        (* console.log *)
| SetOutput (key : string) (v : jsval)      (* core.setOutput *)
| SetFailed (msg : string)                  (* core.setFailed *)
| PageRequest (p : ListParams) (page : nat) (* one request made by octokit.paginate *)
| Request (route : string) (params : list (string * jsval)). (* octokit.request *)

Definition is_failure (e : Event) : bool :=
  match e with SetFailed _ => true | _ => false end.

Definition is_network (e : Event) : bool :=
  match e with PageRequest _ _ | Request _ _ => true | _ => false end.

Definition is_output (key : string) (e : Event) : bool :=
  match e with SetOutput k _ => k =? key | _ => false end.

Definition is_dispatch_call (e : Event) : bool :=
  match e with
  | Request route _ => prefix "POST " route
  | _ => false
  end.

Definition is_read_call (e : Event) : bool :=
  match e with
  | Request route _ => prefix "GET " route
  | _ => false
  end.

(** The invocation failed when [core.setFailed] was called. *)
Definition failed (tr : list Event) : bool := existsb is_failure tr.

Definition output_set (key : string) (tr : list Event) : bool :=
  existsb (is_output key) tr.

(** ** The environment of one invocation *)

Record World : Type := mkWorld {
  version : string;                          (* PackageJSON.version *)
  getInput : string -> string;               (* core.getInput *)
  context_ref : string;                      (* github.context.ref *)
  context_owner : string;                    (* github.context.repo.owner *)
  context_repo : string;                     (* github.context.repo.repo *)
  JSON_parse : string -> result jsval;       (* JSON.parse *)
  getOctokit : string -> result unit;        (* github.getOctokit *)
  listRepoWorkflows : ListParams -> Pages;   (* the provider's catalog *)
  request : string -> list (string * jsval) -> result Response
}.

(** ** Computations: a result and the events performed on the way *)

Definition M (A : Type) : Type := (result A * list Event)%type.

Definition ret {A : Type} (a : A) : M A := (Ok a, []).

Definition throw {A : Type} (message : string) : M A := (Throw message, []).

Definition emit (e : Event) : M unit := (Ok tt, [e]).

Definition lift {A : Type} (r : result A) : M A := (r, []).

Definition bind {A B : Type} (m : M A) (k : A -> M B) : M B :=
  match m with
  | (Ok a, tr) => let (r, tr') := k a in (r, (tr ++ tr')%list)
  | (Throw message, tr) => (Throw message, tr)
  end.

Notation "x <- m ;; k" := (bind m (fun x => k))
  (at level 61, m at next level, right associativity).
Notation "m ;; k" := (bind m (fun _ => k))
  (at level 61, right associativity).

(** [await octokit.request(route, params)]: the call is performed, then
    its response is returned or its error thrown. *)
Definition call (w : World) (route : string) (params : list (string * jsval))
  : M Response :=
  emit (Request route params) ;; lift (request w route params).

(** Modelled from the spec: [octokit.paginate] belongs to the Octokit
    library and is not part of the source; sections 4.2 and 5 of the
    specification describe it.  Pages are requested one after the other,
    each later page being reached through the continuation of the page
    before it; the items are concatenated in the order returned; a
    failing request throws its error at once. *)
Fixpoint paginate_from (p : ListParams) (page : nat) (ps : Pages)
  : M (list Workflow) :=
  match ps with
  | PageFail message =>
      emit (PageRequest p page) ;; throw message
  | PageLast items =>
      emit (PageRequest p page) ;; ret items
  | PageMore items next =>
      emit (PageRequest p page) ;;
      rest <- paginate_from p (S page) next ;;
      ret (items ++ rest)%list
  end.

Definition paginate (w : World) (p : ListParams) : M (list Workflow) :=
  paginate_from p 1 (listRepoWorkflows w p).

(** ** The function [run] *)

(** The phrase looked for at the end of an error message (line 95). *)
Definition disabled_phrase : string := "a disabled workflow".

(** [const workflowRef = core.getInput('workflow')] *)
Definition workflowRef (w : World) : string := getInput w "workflow".

(** [const token = core.getInput('token')] *)
Definition token (w : World) : string := getInput w "token".

(** [const ref = core.getInput('ref') || github.context.ref] *)
Definition ref (w : World) : string :=
  if Js.truthy (JStr (getInput w "ref")) then getInput w "ref"
  else context_ref w.

(** [const [owner, repo] = core.getInput('repo')
      ? core.getInput('repo').split('/')
      : [github.context.repo.owner, github.context.repo.repo]]:
    a position that the array does not have is [undefined]. *)
Definition owner_repo (w : World) : jsval * jsval :=
  if Js.truthy (JStr (getInput w "repo")) then
    match Str.split "/" (getInput w "repo") with
    | [] => (JUndefined, JUndefined)
    | [o] => (JStr o, JUndefined)
    | o :: r :: _ => (JStr o, JStr r)
    end
  else (JStr (context_owner w), JStr (context_repo w)).

Definition owner (w : World) : jsval := fst (owner_repo w).
Definition repo (w : World) : jsval := snd (owner_repo w).

(** Lines 35-39: [let inputs = {}], replaced by [JSON.parse(inputsJson)]
    when [inputsJson] is not empty. *)
Definition decode_inputs (w : World) : result jsval :=
  let inputsJson := getInput w "inputs" in
  if Js.truthy (JStr inputsJson) then JSON_parse w inputsJson
  else Ok (JObj []).

(** The parameters [{ owner, repo, ref, inputs }] of line 46. *)
Definition list_params (w : World) (inputs : jsval) : ListParams :=
  {| lp_owner := owner w; lp_repo := repo w; lp_ref := ref w;
     lp_inputs := inputs |}.

(** Lines 55-59: the predicate given to [workflows.find]. *)
Definition matches (r : string) (workflow : Workflow) : bool :=
  (name workflow =? r)
  || (Str.number_toString (id workflow) =? r)
  || Str.endsWith (path workflow) r.

(** [workflows.find(...)]: the first element that satisfies the
    predicate, [undefined] (here [None]) when there is none. *)
Definition find_workflow (workflows : list Workflow) (r : string)
  : option Workflow :=
  List.find (matches r) workflows.

(** The message of the error thrown on line 61. *)
Definition not_found_message (w : World) : string :=
  "Unable to find workflow '" ++ workflowRef w ++ "' in "
  ++ Js.to_string (owner w) ++ "/" ++ Js.to_string (repo w) ++ " 😥".

(** The route and the body of the dispatch call (lines 67-70). *)
Definition dispatch_route (w : World) (foundWorkflow : Workflow) : string :=
  "POST /repos/" ++ Js.to_string (owner w) ++ "/" ++ Js.to_string (repo w)
  ++ "/actions/workflows/" ++ Str.number_toString (id foundWorkflow)
  ++ "/dispatches".

Definition dispatch_body (w : World) (inputs : jsval)
  : list (string * jsval) :=
  [("ref", JStr (ref w)); ("inputs", inputs)].

(** The route of the follow-up read (line 77): [`GET ${workflowUrl}`],
    which throws when the URL has no string form. *)
Definition read_route (workflowUrl : jsval) : result string :=
  match Js.template workflowUrl with
  | Ok text => Ok ("GET " ++ text)
  | Throw message => Throw message
  end.

(** Line 72: [dispatchResp.data.status === 'queued' &&
    dispatchResp.data.workflow_url], taken as a condition.  The right
    operand is evaluated only when the left one is true. *)
Definition ready (dispatchResp : Response) : result bool :=
  match get_prop (data dispatchResp) "status" with
  | Throw message => Throw message
  | Ok st =>
      if Js.strict_eq_str st "queued" then
        match get_prop (data dispatchResp) "workflow_url" with
        | Throw message => Throw message
        | Ok url => Ok (Js.truthy url)
        end
      else Ok false
  end.

(** Lines 72-85. *)
Definition correlate (w : World) (dispatchResp : Response) : M unit :=
  c <- lift (ready dispatchResp) ;;
  if c : bool then
    workflowUrl <- lift (get_prop (data dispatchResp) "workflow_url") ;;
    route <- lift (read_route workflowUrl) ;;
    workflowRunResponse <- call w route [] ;;
    runId <- lift (get_prop (data workflowRunResponse) "id") ;;
    text <- lift (Js.template runId) ;;
    emit (Log ("Workflow run ID: " ++ text)) ;;
    emit (SetOutput "runId" runId)
  else
    st <- lift (get_prop (data dispatchResp) "status") ;;
    text <- lift (Js.template st) ;;
    emit (Log ("Workflow dispatch event was not successful. Status: "
               ++ text)).

(** Lines 72-90: what follows the dispatch call. *)
Definition after_dispatch (w : World) (foundWorkflow : Workflow)
    (dispatchResp : Response) : M unit :=
  correlate w dispatchResp ;;
  emit (Info ("🏆 API response status: "
              ++ Str.number_toString (status dispatchResp))) ;;
  emit (SetOutput "workflowId" (JNum (id foundWorkflow))).

(** Lines 49-90: what follows the listing of the workflows. *)
Definition after_listing (w : World) (inputs : jsval)
    (workflows : list Workflow) : M unit :=
  emit (Debug "### START List Workflows response data") ;;
  emit (DebugWorkflows workflows) ;;
  emit (Debug "### END:  List Workflows response data") ;;
  foundWorkflow <-
    match find_workflow workflows (workflowRef w) with
    | Some workflow => ret workflow
    | None => throw (not_found_message w)
    end ;;
  emit (Log ("🔎 Found workflow, id: "
             ++ Str.number_toString (id foundWorkflow)
             ++ ", name: " ++ name foundWorkflow
             ++ ", path: " ++ path foundWorkflow)) ;;
  emit (Log "🚀 Calling GitHub API to dispatch workflow...") ;;
  dispatchResp <- call w (dispatch_route w foundWorkflow)
                         (dispatch_body w inputs) ;;
  after_dispatch w foundWorkflow dispatchResp.

(** Lines 24-90: the body of the [try] block. *)
Definition try_block (w : World) : M unit :=
  inputs <- lift (decode_inputs w) ;;
  lift (getOctokit w (token w)) ;;
  workflows <- paginate w (list_params w inputs) ;;
  after_listing w inputs workflows.

(** Lines 92-101: the [catch] block. *)
Definition catch_block (message : string) : list Event :=
  if Str.endsWith message disabled_phrase then
    [Warning "Workflow is disabled, no action was taken"]
  else [SetFailed message].

Definition banner (w : World) : Event :=
  Info ("🏃 Workflow Dispatch Action v" ++ version w).

(** [run]: the events of one invocation, in order. *)
Definition run (w : World) : list Event :=
  banner w ::
  match try_block w with
  | (Ok _, tr) => tr
  | (Throw message, tr) => (tr ++ catch_block message)%list
  end.

(** A provider of [N] pages, all of them served: the first page and the
    pages that follow it. *)
Fixpoint serve (first : list Workflow) (others : list (list Workflow))
  : Pages :=
  match others with
  | [] => PageLast first
  | second :: more => PageMore first (serve second more)
  end.

(** The requests for pages [from], [from + 1], ..., [from + n - 1]. *)
Definition page_requests (p : ListParams) (from n : nat) : list Event :=
  map (PageRequest p) (seq from n).

(** ** A sample environment: the scenarios of the specification *)

Module Sample.

Definition build : Workflow :=
  {| id := 1; name := "build"; path := ".github/workflows/build.yml" |}.
Definition deploy : Workflow :=
  {| id := 2; name := "deploy"; path := ".github/workflows/deploy.yml" |}.
Definition catalog : list Workflow := [build; deploy].

Definition runs_url : string := "https://api.example/runs-collection".

(** The inputs of the action, by name. *)
Definition inputs_with (workflow inputs : string) (key : string) : string :=
  if key =? "workflow" then workflow
  else if key =? "token" then "secret"
  else if key =? "ref" then "main"
  else if key =? "inputs" then inputs
  else "".

(** A decoder that knows a few texts and rejects the others. *)
Definition parse (text : string) : result jsval :=
  if text =? "{}" then Ok (JObj [])
  else if text =? "[1,2]" then Ok (JArr [JNum 1; JNum 2])
  else if text =? "42" then Ok (JNum 42)
  else Throw ("Unexpected token in JSON: " ++ text).

(** [github.getOctokit] refuses an empty token. *)
Definition octokit (tok : string) : result unit :=
  if tok =? "" then Throw "Parameter token or opts.auth is required"
  else Ok tt.

Definition queued : Response :=
  {| status := 200;
     data := JObj [("status", JStr "queued");
                   ("workflow_url", JStr runs_url)] |}.

Definition no_content : Response :=
  {| status := 204; data := JObj [] |}.

Definition run_record : Response :=
  {| status := 200; data := JObj [("id", JNum 555)] |}.

(** A provider that answers the dispatch of workflow 2 with
    [dispatched] and the read of [runs_url] with [read]. *)
Definition provider (dispatched read : result Response)
    (route : string) (_ : list (string * jsval)) : result Response :=
  if route =? "POST /repos/octo/demo/actions/workflows/2/dispatches"
  then dispatched
  else if route =? "GET " ++ runs_url then read
  else Throw "Not Found".

Definition world (workflow inputs : string) (pages : Pages)
    (dispatched read : result Response) : World :=
  {| version := "1.0.0";
     getInput := inputs_with workflow inputs;
     context_ref := "refs/heads/main";
     context_owner := "octo";
     context_repo := "demo";
     JSON_parse := parse;
     getOctokit := octokit;
     listRepoWorkflows := fun _ => pages;
     request := provider dispatched read |}.

(** Scenario 1 of section 8 of the specification. *)
Definition scenario_deploy : World :=
  world "deploy.yml" "" (PageLast catalog) (Ok queued) (Ok run_record).

(** Scenario 2: a reference that nothing matches. *)
Definition scenario_nonexistent : World :=
  world "nonexistent" "" (PageLast catalog) (Ok queued) (Ok run_record).

(** Scenario 3: structured inputs that do not decode. *)
Definition scenario_bad_json : World :=
  world "deploy.yml" "{bad json" (PageLast catalog) (Ok queued)
    (Ok run_record).

Definition params : ListParams :=
  {| lp_owner := JStr "octo"; lp_repo := JStr "demo"; lp_ref := "main";
     lp_inputs := JObj [] |}.

(** A dispatch rejected because the workflow is disabled. *)
Definition disabled_message : string :=
  "Cannot trigger a 'workflow_dispatch' on a disabled workflow".

Definition scenario_disabled : World :=
  world "deploy.yml" "" (PageLast catalog) (Throw disabled_message)
    (Ok run_record).

(** A listing whose only page fails with a message that happens to end
    like the one of a disabled workflow. *)
Definition scenario_fetch_fails_like_disabled : World :=
  world "deploy.yml" "" (PageFail "Not allowed for a disabled workflow")
    (Ok queued) (Ok run_record).

(** A listing whose second page fails. *)
Definition scenario_fetch_fails : World :=
  world "deploy.yml" "" (PageMore [build] (PageFail "Bad credentials"))
    (Ok queued) (Ok run_record).

(** A dispatch accepted without the expected shape. *)
Definition scenario_unconfirmed : World :=
  world "deploy.yml" "" (PageLast catalog) (Ok no_content) (Ok run_record).

(** No workflow reference at all. *)
Definition scenario_no_reference : World :=
  world "" "" (PageLast catalog) (Ok queued) (Ok run_record).

(** Structured inputs that decode to an array. *)
Definition scenario_array_inputs : World :=
  world "deploy.yml" "[1,2]" (PageLast catalog) (Ok queued) (Ok run_record).

(** A catalog served in three pages, the second one empty. *)
Definition scenario_three_pages : World :=
  world "deploy.yml" "" (serve [build] [[]; [deploy]]) (Ok queued)
    (Ok run_record).

End Sample.


(** ** The three matching rules, as the specification words them *)

(** An entry satisfies a rule for [r] when its name is [r], when the
    string form of its id is [r], or when its path ends with [r]. *)
Definition Matches (r : string) (workflow : Workflow) : Prop :=
  name workflow = r
  \/ Str.number_toString (id workflow) = r
  \/ exists before, path workflow = before ++ r.

(** [workflow] is the first entry of [catalog] that satisfies a rule. *)
Definition FirstMatch (r : string) (catalog : list Workflow)
    (workflow : Workflow) : Prop :=
  exists before after,
    catalog = (before ++ workflow :: after)%list
    /\ Matches r workflow
    /\ forall earlier, In earlier before -> ~ Matches r earlier.

(** ** Stages of an invocation, for the statements below *)

(** The inputs were decoded, the client was created and the listing
    returned [workflows] after the page requests [reqs]. *)
Definition Listed (w : World) (inputs : jsval) (workflows : list Workflow)
    (reqs : list Event) : Prop :=
  decode_inputs w = Ok inputs
  /\ getOctokit w (token w) = Ok tt
  /\ paginate w (list_params w inputs) = (Ok workflows, reqs).

(** Moreover [foundWorkflow] was located and the dispatch call was
    answered by [answer]. *)
Definition Dispatched (w : World) (inputs : jsval)
    (workflows : list Workflow) (reqs : list Event)
    (foundWorkflow : Workflow) (answer : result Response) : Prop :=
  Listed w inputs workflows reqs
  /\ find_workflow workflows (workflowRef w) = Some foundWorkflow
  /\ request w (dispatch_route w foundWorkflow) (dispatch_body w inputs)
     = answer.

(** The events of lines 50-52. *)
Definition listing_events (workflows : list Workflow) : list Event :=
  [ Debug "### START List Workflows response data";
    DebugWorkflows workflows;
    Debug "### END:  List Workflows response data" ].

(** The events of lines 63-70, the dispatch call being the last one. *)
Definition dispatch_events (w : World) (inputs : jsval)
    (foundWorkflow : Workflow) : list Event :=
  [ Log ("🔎 Found workflow, id: "
         ++ Str.number_toString (id foundWorkflow)
         ++ ", name: " ++ name foundWorkflow
         ++ ", path: " ++ path foundWorkflow);
    Log "🚀 Calling GitHub API to dispatch workflow...";
    Request (dispatch_route w foundWorkflow) (dispatch_body w inputs) ].

(** The events of lines 88-90. *)
Definition closing_events (foundWorkflow : Workflow)
    (dispatchResp : Response) : list Event :=
  [ Info ("🏆 API response status: "
          ++ Str.number_toString (status dispatchResp));
    SetOutput "workflowId" (JNum (id foundWorkflow)) ].

(** A network call of the invocation fails with [message]; the index is
    the sequence of events of the [try] block up to that call, which comes
    last. *)
Inductive NetworkFailure (w : World) (message : string)
  : list Event -> Prop :=
| page_fetch_fails (inputs : jsval) (reqs : list Event) :
    decode_inputs w = Ok inputs ->
    getOctokit w (token w) = Ok tt ->
    paginate w (list_params w inputs) = (Throw message, reqs) ->
    NetworkFailure w message reqs
| dispatch_fails (inputs : jsval) (workflows : list Workflow)
    (reqs : list Event) (foundWorkflow : Workflow) :
    Dispatched w inputs workflows reqs foundWorkflow (Throw message) ->
    NetworkFailure w message
      (reqs ++ listing_events workflows
         ++ dispatch_events w inputs foundWorkflow)%list
| read_fails (inputs : jsval) (workflows : list Workflow)
    (reqs : list Event) (foundWorkflow : Workflow)
    (dispatchResp : Response) (workflowUrl : jsval) (route : string) :
    Dispatched w inputs workflows reqs foundWorkflow (Ok dispatchResp) ->
    ready dispatchResp = Ok true ->
    get_prop (data dispatchResp) "workflow_url" = Ok workflowUrl ->
    read_route workflowUrl = Ok route ->
    request w route [] = Throw message ->
    NetworkFailure w message
      (reqs ++ listing_events workflows
         ++ dispatch_events w inputs foundWorkflow
         ++ [Request route []])%list.

(** C3 as first stated: whatever its message, a failing network call
    ends the invocation with [core.setFailed] on that message. *)
Definition every_network_failure_is_reported : Prop :=
  forall (w : World) (message : string) (tr : list Event),
    NetworkFailure w message tr ->
    In (SetFailed message) (run w).

(** The number of page requests that a listing takes: one for each page
    up to the last one or to the first failure. *)
Fixpoint requested (ps : Pages) : nat :=
  match ps with
  | PageFail _ | PageLast _ => 1
  | PageMore _ next => S (requested next)
  end.

Definition is_page_request (e : Event) : bool :=
  match e with PageRequest _ _ => true | _ => false end.

Definition is_notice (e : Event) : bool :=
  match e with Warning _ => true | _ => false end.

Definition is_any_output (e : Event) : bool :=
  match e with SetOutput _ _ => true | _ => false end.

(** An event that decides nothing about the invocation: neither
    [core.setFailed] nor [core.warning]. *)
Definition calm (e : Event) : bool :=
  negb (is_failure e) && negb (is_notice e).

(** A calm event that sets no output either. *)
Definition silent (e : Event) : bool :=
  calm e && negb (is_any_output e).

(** Every way in which the [try] block ends, with the events performed. *)
Inductive Ending (w : World) : result unit -> list Event -> Prop :=
| ends_decoding (message : string) :
    decode_inputs w = Throw message ->
    Ending w (Throw message) []
| ends_client (inputs : jsval) (message : string) :
    decode_inputs w = Ok inputs ->
    getOctokit w (token w) = Throw message ->
    Ending w (Throw message) []
| ends_listing (inputs : jsval) (message : string) (reqs : list Event) :
    decode_inputs w = Ok inputs ->
    getOctokit w (token w) = Ok tt ->
    paginate w (list_params w inputs) = (Throw message, reqs) ->
    Ending w (Throw message) reqs
| ends_locating (inputs : jsval) (workflows : list Workflow)
    (reqs : list Event) :
    Listed w inputs workflows reqs ->
    find_workflow workflows (workflowRef w) = None ->
    Ending w (Throw (not_found_message w))
      (reqs ++ listing_events workflows)%list
| ends_dispatching (inputs : jsval) (workflows : list Workflow)
    (reqs : list Event) (foundWorkflow : Workflow) (message : string) :
    Dispatched w inputs workflows reqs foundWorkflow (Throw message) ->
    Ending w (Throw message)
      (reqs ++ listing_events workflows
         ++ dispatch_events w inputs foundWorkflow)%list
| ends_correlating (inputs : jsval) (workflows : list Workflow)
    (reqs : list Event) (foundWorkflow : Workflow)
    (dispatchResp : Response) (message : string) (tr : list Event) :
    Dispatched w inputs workflows reqs foundWorkflow (Ok dispatchResp) ->
    correlate w dispatchResp = (Throw message, tr) ->
    Ending w (Throw message)
      (reqs ++ listing_events workflows
         ++ dispatch_events w inputs foundWorkflow ++ tr)%list
| ends_well (inputs : jsval) (workflows : list Workflow)
    (reqs : list Event) (foundWorkflow : Workflow)
    (dispatchResp : Response) (tr : list Event) :
    Dispatched w inputs workflows reqs foundWorkflow (Ok dispatchResp) ->
    correlate w dispatchResp = (Ok tt, tr) ->
    Ending w (Ok tt)
      (reqs ++ listing_events workflows
         ++ dispatch_events w inputs foundWorkflow
         ++ tr ++ closing_events foundWorkflow dispatchResp)%list.

(** One step of a computation: the monad operations are unfolded. *)
Ltac step := cbn [bind emit lift ret throw call fst snd app].

(** ** Further notions, for the properties of [run] beyond the claims *)

(** The event that settles an invocation: [core.setFailed], the notice
    of a disabled workflow, or the output [workflowId] of line 90. *)
Definition is_verdict (e : Event) : bool :=
  is_failure e || is_notice e || is_output "workflowId" e.

(** The events of an invocation that reaches the dispatch call, the
    banner apart, up to that call. *)
Definition upto (w : World) (inputs : jsval) (workflows : list Workflow)
    (reqs : list Event) (foundWorkflow : Workflow) : list Event :=
  (reqs ++ listing_events workflows
     ++ dispatch_events w inputs foundWorkflow)%list.

(** A string without the separator of [owner/repo]. *)
Fixpoint no_slash (s : string) : bool :=
  match s with
  | EmptyString => true
  | String c rest => negb (Ascii.eqb c "/") && no_slash rest
  end.

(** Environments for the edge cases. *)
Module Edge.

(** The inputs of the action, each one given. *)
Definition inputs_of (workflow tok ref repo inputs : string) (key : string)
  : string :=
  if key =? "workflow" then workflow
  else if key =? "token" then tok
  else if key =? "ref" then ref
  else if key =? "repo" then repo
  else if key =? "inputs" then inputs
  else "".

(** A decoder that rejects every text. *)
Definition reject (text : string) : result jsval :=
  Throw ("Unexpected token in JSON: " ++ text).

(** A provider that answers every dispatch with [dispatched] and every
    other request with [read]. *)
Definition provider (dispatched read : result Response)
    (route : string) (_ : list (string * jsval)) : result Response :=
  if prefix "POST " route then dispatched else read.

Definition world (get : string -> string) (pages : Pages)
    (dispatched read : result Response) : World :=
  {| version := "1.0.0";
     getInput := get;
     context_ref := "refs/heads/main";
     context_owner := "octo";
     context_repo := "demo";
     JSON_parse := reject;
     getOctokit := Sample.octokit;
     listRepoWorkflows := fun _ => pages;
     request := provider dispatched read |}.

(** Only the workflow is given: every other input is empty. *)
Definition defaults : World :=
  world (inputs_of "deploy" "secret" "" "" "") (PageLast Sample.catalog)
    (Ok Sample.queued) (Ok Sample.run_record).

(** No token. *)
Definition no_token : World :=
  world (inputs_of "deploy" "" "" "" "") (PageLast Sample.catalog)
    (Ok Sample.queued) (Ok Sample.run_record).

(** A repository given with more segments than two. *)
Definition long_repo : World :=
  world (inputs_of "deploy" "secret" "v1" "acme/tools/extra" "")
    (PageLast Sample.catalog) (Ok Sample.queued) (Ok Sample.run_record).

(** A repository given without its owner. *)
Definition bare_repo : World :=
  world (inputs_of "deploy" "secret" "v1" "tools" "")
    (PageLast Sample.catalog) (Ok Sample.queued) (Ok Sample.run_record).

(** A dispatch answered without a body, as a 204 response is. *)
Definition no_body : World :=
  world (inputs_of "deploy" "secret" "" "" "") (PageLast Sample.catalog)
    (Ok {| status := 204; data := JUndefined |}) (Ok Sample.run_record).

(** A run record without an id. *)
Definition no_run_id : World :=
  world (inputs_of "deploy" "secret" "" "" "") (PageLast Sample.catalog)
    (Ok Sample.queued) (Ok {| status := 200; data := JObj [] |}).

(** A correlation read that fails. *)
Definition read_fails : World :=
  world (inputs_of "deploy" "secret" "" "" "") (PageLast Sample.catalog)
    (Ok Sample.queued) (Throw "Not Found").

(** A dispatch whose [workflow_url] is a number. *)
Definition numeric_url : World :=
  world (inputs_of "deploy" "secret" "" "" "") (PageLast Sample.catalog)
    (Ok {| status := 200;
           data := JObj [("status", JStr "queued");
                         ("workflow_url", JNum 7)] |})
    (Ok Sample.run_record).

(** A repository without workflows. *)
Definition empty_catalog : World :=
  world (inputs_of "" "secret" "" "" "") (PageLast [])
    (Ok Sample.queued) (Ok Sample.run_record).

(** A dispatch whose [workflow_url] is an object with a field
    [toString] of its own. *)
Definition opaque_url : World :=
  world (inputs_of "deploy" "secret" "" "" "") (PageLast Sample.catalog)
    (Ok {| status := 200;
           data := JObj [("status", JStr "queued");
                         ("workflow_url",
                          JObj [("toString", JStr "runs")])] |})
    (Ok Sample.run_record).

(** A run record whose id is an object with a field [toString] of its
    own. *)
Definition opaque_run_id : World :=
  world (inputs_of "deploy" "secret" "" "" "") (PageLast Sample.catalog)
    (Ok Sample.queued)
    (Ok {| status := 200;
           data := JObj [("id", JObj [("toString", JNum 1)])] |}).

Definition params : ListParams :=
  {| lp_owner := JStr "octo"; lp_repo := JStr "demo";
     lp_ref := "refs/heads/main"; lp_inputs := JObj [] |}.

End Edge.
Example run_scenario_deploy :
  run Sample.scenario_deploy =
  [ Info "🏃 Workflow Dispatch Action v1.0.0";
    PageRequest Sample.params 1;
    Debug "### START List Workflows response data";
    DebugWorkflows Sample.catalog;
    Debug "### END:  List Workflows response data";
    Log "🔎 Found workflow, id: 2, name: deploy, path: .github/workflows/deploy.yml";
    Log "🚀 Calling GitHub API to dispatch workflow...";
    Request "POST /repos/octo/demo/actions/workflows/2/dispatches"
      [("ref", JStr "main"); ("inputs", JObj [])];
    Request "GET https://api.example/runs-collection" [];
    Log "Workflow run ID: 555";
    SetOutput "runId" (JNum 555);
    Info "🏆 API response status: 200";
    SetOutput "workflowId" (JNum 2) ].
Proof. reflexivity. Qed.

Example run_scenario_nonexistent :
  run Sample.scenario_nonexistent =
  [ Info "🏃 Workflow Dispatch Action v1.0.0";
    PageRequest Sample.params 1;
    Debug "### START List Workflows response data";
    DebugWorkflows Sample.catalog;
    Debug "### END:  List Workflows response data";
    SetFailed "Unable to find workflow 'nonexistent' in octo/demo 😥" ].
Proof. reflexivity. Qed.

Example run_scenario_bad_json :
  run Sample.scenario_bad_json =
  [ Info "🏃 Workflow Dispatch Action v1.0.0";
    SetFailed "Unexpected token in JSON: {bad json" ].
Proof. reflexivity. Qed.

Example split_owner_repo :
  Str.split "/" "octo/demo" = ["octo"; "demo"]
  /\ Str.split "/" "octo" = ["octo"]
  /\ Str.split "/" "a/b/c" = ["a"; "b"; "c"]
  /\ Str.split "/" "/x" = [""; "x"].
Proof. repeat split; reflexivity. Qed.

Example to_string_samples :
  Js.to_string (JArr [JNum 1; JNull; JStr "a"; JArr [JBool true; JNum (-7)]])
  = "1,,a,true,-7"
  /\ Js.to_string (JObj [("id", JNum 1)]) = "[object Object]"
  /\ Js.to_string (JNum 0) = "0".
Proof. repeat split; reflexivity. Qed.

Example endsWith_samples :
  Str.endsWith ".github/workflows/deploy.yml" "deploy.yml" = true
  /\ Str.endsWith "deploy.yml" ".github/workflows/deploy.yml" = false
  /\ Str.endsWith "build" "" = true
  /\ Str.endsWith "HttpError: a disabled workflow." "a disabled workflow"
     = false.
Proof. repeat split; reflexivity. Qed.

Example find_workflow_samples :
  find_workflow Sample.catalog "deploy.yml" = Some Sample.deploy
  /\ find_workflow Sample.catalog "build" = Some Sample.build
  /\ find_workflow Sample.catalog "2" = Some Sample.deploy
  /\ find_workflow Sample.catalog "yml" = Some Sample.build
  /\ find_workflow Sample.catalog "nonexistent" = None.
Proof. repeat split; reflexivity. Qed.

Example template_samples :
  Js.template (JArr [JNum 1; JNull; JStr "a"; JArr [JBool true; JNum (-7)]])
  = Ok "1,,a,true,-7"
  /\ Js.template (JObj [("id", JNum 1)]) = Ok "[object Object]"
  /\ Js.template (JObj [("toString", JNum 1)])
     = Throw "Cannot convert object to primitive value"
  /\ Js.template (JArr [JNum 1; JObj [("toString", JStr "x")]])
     = Throw "Cannot convert object to primitive value".
Proof. repeat split; reflexivity. Qed.

Example run_opaque_run_id :
  run Edge.opaque_run_id
  = [ Info "🏃 Workflow Dispatch Action v1.0.0";
      PageRequest Edge.params 1;
      Debug "### START List Workflows response data";
      DebugWorkflows Sample.catalog;
      Debug "### END:  List Workflows response data";
      Log "🔎 Found workflow, id: 2, name: deploy, path: .github/workflows/deploy.yml";
      Log "🚀 Calling GitHub API to dispatch workflow...";
      Request "POST /repos/octo/demo/actions/workflows/2/dispatches"
        [("ref", JStr "refs/heads/main"); ("inputs", JObj [])];
      Request "GET https://api.example/runs-collection" [];
      SetFailed "Cannot convert object to primitive value" ].
Proof. reflexivity. Qed.

(** ** Facts about strings *)

Lemma append_empty_r (s : string) : s ++ "" = s.
Proof. induction s as [|c s IH]; simpl; [reflexivity | now rewrite IH]. Qed.

Lemma append_assoc (a b c : string) : (a ++ b) ++ c = a ++ (b ++ c).
Proof. induction a as [|x a IH]; simpl; [reflexivity | now rewrite IH]. Qed.

Lemma length_append (a b : string) :
  String.length (a ++ b) = String.length a + String.length b.
Proof. induction a as [|x a IH]; simpl; [reflexivity | now rewrite IH]. Qed.

Lemma substring_whole (s : string) : substring 0 (String.length s) s = s.
Proof. induction s as [|c s IH]; simpl; [reflexivity | now rewrite IH]. Qed.

Lemma substring_skip (before s : string) (m : nat) :
  substring (String.length before) m (before ++ s) = substring 0 m s.
Proof. induction before as [|c before IH]; simpl; [reflexivity | exact IH]. Qed.

Lemma substring_cut (s : string) (n : nat) :
  n <= String.length s ->
  s = substring 0 n s ++ substring n (String.length s - n) s.
Proof.
  revert n; induction s as [|c s IH]; intros n Hn.
  - destruct n; reflexivity.
  - destruct n as [|n]; simpl.
    + now rewrite substring_whole.
    + simpl in Hn. rewrite <- IH by lia. reflexivity.
Qed.

(** [endsWith] decides the suffix relation. *)
Lemma endsWith_iff (s t : string) :
  Str.endsWith s t = true <-> exists before, s = before ++ t.
Proof.
  unfold Str.endsWith. split.
  - destruct (Nat.ltb_spec (String.length s) (String.length t)) as [Hlt|Hle];
      [discriminate|].
    intros H. apply String.eqb_eq in H.
    exists (substring 0 (String.length s - String.length t) s).
    rewrite (substring_cut s (String.length s - String.length t)) at 1 by lia.
    replace (String.length s - (String.length s - String.length t))
      with (String.length t) by lia.
    now rewrite H.
  - intros [before ->]. rewrite length_append.
    destruct (Nat.ltb_spec (String.length before + String.length t)
                (String.length t)) as [Hlt|Hle]; [lia|].
    replace (String.length before + String.length t - String.length t)
      with (String.length before) by lia.
    rewrite substring_skip, substring_whole. apply String.eqb_refl.
Qed.

Lemma endsWith_empty (s : string) : Str.endsWith s "" = true.
Proof. apply endsWith_iff. exists s. now rewrite append_empty_r. Qed.

Lemma last_unit_append (a b : string) :
  b <> "" -> Str.last_unit (a ++ b) = Str.last_unit b.
Proof.
  intros Hb. induction a as [|c a IH]; [reflexivity|].
  simpl. rewrite IH. destruct (a ++ b) eqn:E; [|reflexivity].
  destruct a; simpl in E; [contradiction | discriminate].
Qed.

(** Two non-empty endings of one string have the same last unit. *)
Lemma endsWith_last_unit (s t : string) :
  t <> "" -> Str.endsWith s t = true -> Str.last_unit s = Str.last_unit t.
Proof.
  intros Ht H. apply endsWith_iff in H as [before ->].
  now apply last_unit_append.
Qed.

Lemma Contains_here (a t b : string) : Str.Contains (a ++ t ++ b) t.
Proof. now exists a, b. Qed.

Lemma Contains_left (a s t : string) :
  Str.Contains s t -> Str.Contains (a ++ s) t.
Proof.
  intros (x & y & ->). exists (a ++ x), y. now rewrite append_assoc.
Qed.

Lemma prefix_append (s t : string) : prefix s (s ++ t) = true.
Proof.
  induction s as [|c s IH]; simpl; [now destruct t|].
  destruct (ascii_dec c c) as [_|Hc]; [exact IH | now elim Hc].
Qed.

Lemma last_unit_tail (a b : string) (c : ascii) :
  Str.last_unit b = Some c -> Str.last_unit (a ++ b) = Some c.
Proof.
  intros Hb. rewrite last_unit_append; [exact Hb|].
  intros ->. discriminate Hb.
Qed.

(** ** The matcher *)

Lemma matches_iff (r : string) (workflow : Workflow) :
  matches r workflow = true <-> Matches r workflow.
Proof.
  unfold matches, Matches.
  rewrite !orb_true_iff, !String.eqb_eq, endsWith_iff. tauto.
Qed.

Lemma find_workflow_first (r : string) (catalog : list Workflow)
    (workflow : Workflow) :
  find_workflow catalog r = Some workflow <-> FirstMatch r catalog workflow.
Proof.
  unfold find_workflow, FirstMatch. split.
  - induction catalog as [|x xs IH]; simpl; [discriminate|].
    destruct (matches r x) eqn:Hx.
    + intros [= ->]. exists [], xs. repeat split.
      * now apply matches_iff.
      * intros e [].
    + intros H. destruct (IH H) as (before & after & -> & Hm & Hno).
      exists (x :: before), after. repeat split; [assumption|].
      intros e [<-|He]; [|now apply Hno].
      rewrite <- matches_iff, Hx. discriminate.
  - intros (before & after & -> & Hm & Hno).
    induction before as [|x before IH]; simpl.
    + apply matches_iff in Hm. now rewrite Hm.
    + destruct (matches r x) eqn:Hx.
      * exfalso. apply (Hno x); [now left | now apply matches_iff].
      * apply IH. intros e He. apply Hno. now right.
Qed.

Lemma find_workflow_none (r : string) (catalog : list Workflow) :
  find_workflow catalog r = None
  <-> forall workflow, In workflow catalog -> ~ Matches r workflow.
Proof.
  unfold find_workflow. split.
  - intros H x Hx Hm. apply matches_iff in Hm.
    now rewrite (find_none _ _ H x Hx) in Hm.
  - intros H. induction catalog as [|x xs IH]; simpl; [reflexivity|].
    destruct (matches r x) eqn:Hx.
    + exfalso. apply (H x); [now left | now apply matches_iff].
    + apply IH. intros y Hy. apply H. now right.
Qed.

(** C1. For every catalog and every reference [r]: if some entry has its
    name equal to [r], or the string form of its id equal to [r], or a
    path ending with [r], the matcher returns the first such entry in
    catalog order; if no entry satisfies any of the three rules it
    returns nothing. *)
Theorem find_workflow_spec (catalog : list Workflow) (r : string) :
  ((exists workflow, In workflow catalog /\ Matches r workflow) ->
   exists workflow,
     find_workflow catalog r = Some workflow
     /\ FirstMatch r catalog workflow)
  /\ ((forall workflow, In workflow catalog -> ~ Matches r workflow) ->
      find_workflow catalog r = None).
Proof.
  split.
  - intros (x & Hin & Hm).
    destruct (find_workflow catalog r) as [found|] eqn:E.
    + exists found. split; [reflexivity | now apply find_workflow_first].
    + exfalso. now apply (proj1 (find_workflow_none r catalog) E x).
  - apply find_workflow_none.
Qed.

Lemma find_workflow_spec_witness :
  (exists workflow,
     find_workflow Sample.catalog "deploy.yml" = Some workflow
     /\ FirstMatch "deploy.yml" Sample.catalog workflow)
  /\ find_workflow [Sample.build] "deploy.yml" = None.
Proof.
  split.
  - apply (proj1 (find_workflow_spec Sample.catalog "deploy.yml")).
    exists Sample.deploy. split; [simpl; auto|].
    right; right. exists ".github/workflows/". reflexivity.
  - apply (proj2 (find_workflow_spec [Sample.build] "deploy.yml")).
    intros x [<-|[]] Hm. apply matches_iff in Hm. discriminate Hm.
Defined.

(** ** String forms *)

Lemma template_to_string_bounded (n : nat) :
  forall (v : jsval) (s : string),
    Js.depth v <= n -> Js.template v = Ok s -> Js.to_string v = s.
Proof.
  induction n as [|n IH];
    intros [| |[|]|k|t|elems|fields] s Hd;
    cbn [Js.template Js.to_string];
    try (intros [= <-]; reflexivity);
    try (destruct (Js.has_key "toString" fields); [discriminate|];
         now intros [= <-]).
  - cbn [Js.depth] in Hd. lia.
  - cbn [Js.depth] in Hd. apply le_S_n in Hd.
    match goal with
    | |- match ?f elems with _ => _ end = _ -> _ => set (each := f)
    end.
    assert (Heach : forall ss,
               each elems = Ok ss ->
               map (fun e => match e with
                             | JUndefined | JNull => ""
                             | _ => Js.to_string e
                             end) elems = ss).
    { clear s. induction elems as [|e l IHl]; intros ss; cbn [each map].
      - now intros [= <-].
      - cbn [fold_right] in Hd.
        assert (He : Js.depth e <= n) by lia.
        assert (Hl : fold_right (fun e n => Nat.max (Js.depth e) n) 0 l <= n)
          by lia.
        specialize (IHl Hl).
        assert (Hhead : forall s',
                   match e with
                   | JUndefined | JNull => Ok ""
                   | _ => Js.template e
                   end = Ok s' ->
                   match e with
                   | JUndefined | JNull => ""
                   | _ => Js.to_string e
                   end = s').
        { intros s'. destruct e; try (intros [= <-]; reflexivity);
            intros H; now apply IH. }
        fold each.
        destruct (match e with
                  | JUndefined | JNull => Ok ""
                  | _ => Js.template e
                  end) as [s'|]; [|discriminate].
        rewrite (Hhead s' eq_refl).
        destruct (each l) as [ss'|]; [|discriminate].
        intros [= <-]. now rewrite (IHl _ eq_refl). }
    destruct (each elems) as [ss|]; [|discriminate].
    intros [= <-]. now rewrite (Heach _ eq_refl).
Qed.

(** Where the interpolation gives a string, it is the string form. *)
Lemma template_to_string (v : jsval) (s : string) :
  Js.template v = Ok s -> Js.to_string v = s.
Proof. apply (template_to_string_bounded (Js.depth v)). apply le_n. Qed.

(** The owner and the repo are strings or [undefined]: lines 61 and 67
    can always print them. *)
Lemma owner_repo_string_form (w : World) :
  Js.template (owner w) = Ok (Js.to_string (owner w))
  /\ Js.template (repo w) = Ok (Js.to_string (repo w)).
Proof.
  unfold owner, repo, owner_repo.
  destruct (Js.truthy (JStr (getInput w "repo"))); [|split; reflexivity].
  destruct (Str.split "/" (getInput w "repo")) as [|o [|r rest]];
    split; reflexivity.
Qed.

(** ** The listing *)

Lemma paginate_from_events (p : ListParams) (ps : Pages) (from : nat) :
  snd (paginate_from p from ps) = page_requests p from (requested ps).
Proof.
  revert from; induction ps as [message|items|items next IH]; intros from;
    try reflexivity.
  simpl. specialize (IH (S from)).
  destruct (paginate_from p (S from) next) as [[rest|message] tr];
    simpl in *; rewrite IH; unfold page_requests; simpl;
    now rewrite ?app_nil_r.
Qed.

Lemma paginate_from_serve (p : ListParams) (first : list Workflow)
    (others : list (list Workflow)) (from : nat) :
  paginate_from p from (serve first others)
  = (Ok (concat (first :: others)),
     page_requests p from (S (length others))).
Proof.
  revert first from; induction others as [|second more IH];
    intros first from.
  - simpl. now rewrite app_nil_r.
  - cbn [serve paginate_from]. rewrite (IH second (S from)).
    unfold page_requests. simpl. now rewrite app_nil_r.
Qed.

Lemma page_requests_are_pages (p : ListParams) (from n : nat) :
  forallb is_page_request (page_requests p from n) = true.
Proof.
  unfold page_requests. revert from; induction n as [|n IH]; intros from;
    simpl; auto.
Qed.

Lemma paginate_events (w : World) (p : ListParams) (r : result (list Workflow))
    (reqs : list Event) :
  paginate w p = (r, reqs) -> forallb is_page_request reqs = true.
Proof.
  unfold paginate. intros H.
  pose proof (paginate_from_events p (listRepoWorkflows w p) 1) as E.
  rewrite H in E. simpl in E. subst reqs. apply page_requests_are_pages.
Qed.

(** C8. For a catalog of [N] pages, the first one and [N - 1] others,
    the catalog fetch returns the concatenation of all the pages in the
    order in which the provider returned them, as one sequence, and it
    makes exactly [N] page requests, for the pages 1 to [N]. *)
Theorem paginate_all_pages (w : World) (p : ListParams)
    (first : list Workflow) (others : list (list Workflow)) :
  listRepoWorkflows w p = serve first others ->
  fst (paginate w p) = Ok (concat (first :: others))
  /\ snd (paginate w p) = page_requests p 1 (length (first :: others))
  /\ length (filter is_network (snd (paginate w p)))
     = length (first :: others).
Proof.
  intros H. unfold paginate. rewrite H, paginate_from_serve.
  repeat split. cbn [snd length].
  generalize (S (length others)) as n. generalize 1 as from.
  unfold page_requests. intros from n; revert from.
  induction n as [|n IH]; intros from; simpl; auto.
Qed.

Lemma paginate_all_pages_witness :
  fst (paginate Sample.scenario_three_pages Sample.params)
  = Ok [Sample.build; Sample.deploy]
  /\ snd (paginate Sample.scenario_three_pages Sample.params)
     = [PageRequest Sample.params 1; PageRequest Sample.params 2;
        PageRequest Sample.params 3]
  /\ length (filter is_network
               (snd (paginate Sample.scenario_three_pages Sample.params)))
     = 3.
Proof.
  exact (paginate_all_pages Sample.scenario_three_pages Sample.params
           [Sample.build] [[]; [Sample.deploy]] eq_refl).
Defined.

(** ** The stages of [run] *)

Lemma try_block_listed (w : World) (inputs : jsval)
    (workflows : list Workflow) (reqs : list Event) :
  Listed w inputs workflows reqs ->
  try_block w
  = (fst (after_listing w inputs workflows),
     (reqs ++ snd (after_listing w inputs workflows))%list).
Proof.
  intros (Hin & Hoc & Hpg). unfold try_block.
  rewrite Hin, Hoc. step. rewrite Hpg. step.
  now destruct (after_listing w inputs workflows) as [r tr].
Qed.

Lemma after_listing_missing (w : World) (inputs : jsval)
    (workflows : list Workflow) :
  find_workflow workflows (workflowRef w) = None ->
  after_listing w inputs workflows
  = (Throw (not_found_message w), listing_events workflows).
Proof. intros H. unfold after_listing. rewrite H. reflexivity. Qed.

Lemma after_listing_found (w : World) (inputs : jsval)
    (workflows : list Workflow) (foundWorkflow : Workflow) :
  find_workflow workflows (workflowRef w) = Some foundWorkflow ->
  after_listing w inputs workflows
  = match request w (dispatch_route w foundWorkflow)
            (dispatch_body w inputs) with
    | Ok dispatchResp =>
        (fst (after_dispatch w foundWorkflow dispatchResp),
         (listing_events workflows
            ++ dispatch_events w inputs foundWorkflow
            ++ snd (after_dispatch w foundWorkflow dispatchResp))%list)
    | Throw message =>
        (Throw message,
         (listing_events workflows
            ++ dispatch_events w inputs foundWorkflow)%list)
    end.
Proof.
  intros H. unfold after_listing. rewrite H. step.
  destruct (request w (dispatch_route w foundWorkflow)
              (dispatch_body w inputs)) as [dispatchResp|message]; step.
  - now destruct (after_dispatch w foundWorkflow dispatchResp) as [r tr].
  - reflexivity.
Qed.

(** The [try] block of an invocation that reaches the dispatch call. *)
Lemma try_block_dispatched (w : World) (inputs : jsval)
    (workflows : list Workflow) (reqs : list Event)
    (foundWorkflow : Workflow) (answer : result Response) :
  Dispatched w inputs workflows reqs foundWorkflow answer ->
  try_block w
  = match answer with
    | Ok dispatchResp =>
        (fst (after_dispatch w foundWorkflow dispatchResp),
         (reqs ++ listing_events workflows
            ++ dispatch_events w inputs foundWorkflow
            ++ snd (after_dispatch w foundWorkflow dispatchResp))%list)
    | Throw message =>
        (Throw message,
         (reqs ++ listing_events workflows
            ++ dispatch_events w inputs foundWorkflow)%list)
    end.
Proof.
  intros (HL & Hfind & Hreq).
  rewrite (try_block_listed w inputs workflows reqs HL),
    (after_listing_found w inputs workflows foundWorkflow Hfind), Hreq.
  destruct answer; reflexivity.
Qed.

Lemma after_dispatch_correlate (w : World) (foundWorkflow : Workflow)
    (dispatchResp : Response) :
  after_dispatch w foundWorkflow dispatchResp
  = match correlate w dispatchResp with
    | (Ok _, tr) =>
        (Ok tt, (tr ++ closing_events foundWorkflow dispatchResp)%list)
    | (Throw message, tr) => (Throw message, tr)
    end.
Proof.
  unfold after_dispatch.
  destruct (correlate w dispatchResp) as [[[]|message] tr]; reflexivity.
Qed.

Lemma ready_reads (dispatchResp : Response) (c : bool) :
  ready dispatchResp = Ok c ->
  exists st url,
    get_prop (data dispatchResp) "status" = Ok st
    /\ get_prop (data dispatchResp) "workflow_url" = Ok url
    /\ c = Js.strict_eq_str st "queued" && Js.truthy url.
Proof.
  unfold ready, get_prop.
  destruct (data dispatchResp) as [| |b|n|s|l|fields]; try discriminate;
    match goal with
    | |- context [Js.strict_eq_str ?v _] =>
        destruct (Js.strict_eq_str v "queued") eqn:E
    end;
    intros [= <-]; do 2 eexists; repeat split; rewrite ?E; reflexivity.
Qed.

(** The correlation when the response is not in the ready shape. *)
Lemma correlate_not_ready (w : World) (dispatchResp : Response)
    (st : jsval) :
  ready dispatchResp = Ok false ->
  get_prop (data dispatchResp) "status" = Ok st ->
  correlate w dispatchResp
  = match Js.template st with
    | Throw message => (Throw message, [])
    | Ok text =>
        (Ok tt,
         [Log ("Workflow dispatch event was not successful. Status: "
               ++ text)])
    end.
Proof.
  intros Hr Hst. unfold correlate. rewrite Hr. step. rewrite Hst. step.
  destruct (Js.template st) as [text|message]; reflexivity.
Qed.

(** The correlation when the response is in the ready shape. *)
Lemma correlate_ready (w : World) (dispatchResp : Response)
    (workflowUrl : jsval) :
  ready dispatchResp = Ok true ->
  get_prop (data dispatchResp) "workflow_url" = Ok workflowUrl ->
  correlate w dispatchResp
  = match read_route workflowUrl with
    | Throw message => (Throw message, [])
    | Ok route =>
        match request w route [] with
        | Throw message => (Throw message, [Request route []])
        | Ok workflowRunResponse =>
            match get_prop (data workflowRunResponse) "id" with
            | Throw message => (Throw message, [Request route []])
            | Ok runId =>
                match Js.template runId with
                | Throw message => (Throw message, [Request route []])
                | Ok text =>
                    (Ok tt,
                     [ Request route [];
                       Log ("Workflow run ID: " ++ text);
                       SetOutput "runId" runId ])
                end
            end
        end
    end.
Proof.
  intros Hr Hurl. unfold correlate. rewrite Hr. step. rewrite Hurl. step.
  destruct (read_route workflowUrl) as [route|message]; step;
    [|reflexivity].
  destruct (request w route []) as [rr|message]; step; [|reflexivity].
  destruct (get_prop (data rr) "id") as [runId|message]; step;
    [|reflexivity].
  destruct (Js.template runId) as [text|message]; reflexivity.
Qed.


Lemma correlate_throws (w : World) (dispatchResp : Response)
    (message : string) :
  ready dispatchResp = Throw message ->
  correlate w dispatchResp = (Throw message, []).
Proof. intros Hr. unfold correlate. now rewrite Hr. Qed.

(** ** What the [try] block can have done when it ends *)

Lemma page_requests_silent (reqs : list Event) :
  forallb is_page_request reqs = true -> forallb silent reqs = true.
Proof.
  induction reqs as [|e reqs IH]; simpl; [reflexivity|].
  intros H. apply andb_true_iff in H as [He H].
  rewrite (IH H). now destruct e.
Qed.

Lemma silent_calm (tr : list Event) :
  forallb silent tr = true -> forallb calm tr = true.
Proof.
  induction tr as [|e tr IH]; simpl; [reflexivity|].
  intros H. apply andb_true_iff in H as [He H].
  rewrite (IH H). unfold silent in He.
  apply andb_true_iff in He as [-> _]. reflexivity.
Qed.

Lemma try_block_ending (w : World) :
  Ending w (fst (try_block w)) (snd (try_block w)).
Proof.
  destruct (decode_inputs w) as [inputs|message] eqn:Hin.
  2: { unfold try_block. rewrite Hin. now apply ends_decoding. }
  destruct (getOctokit w (token w)) as [[]|message] eqn:Hoc.
  2: { unfold try_block. rewrite Hin. step. rewrite Hoc.
       now apply ends_client with inputs. }
  destruct (paginate w (list_params w inputs)) as [[workflows|message] reqs]
    eqn:Hpg.
  2: { unfold try_block. rewrite Hin. step. rewrite Hoc. step.
       rewrite Hpg. now apply ends_listing with inputs. }
  assert (HL : Listed w inputs workflows reqs) by now repeat split.
  destruct (find_workflow workflows (workflowRef w)) as [foundWorkflow|]
    eqn:Hfind.
  2: { rewrite (try_block_listed _ _ _ _ HL),
         (after_listing_missing _ _ _ Hfind).
       now apply ends_locating with inputs. }
  destruct (request w (dispatch_route w foundWorkflow)
              (dispatch_body w inputs)) as [dispatchResp|message] eqn:Hreq.
  2: { assert (HD : Dispatched w inputs workflows reqs foundWorkflow
                      (Throw message)) by now repeat split.
       rewrite (try_block_dispatched _ _ _ _ _ _ HD).
       now apply ends_dispatching. }
  assert (HD : Dispatched w inputs workflows reqs foundWorkflow
                 (Ok dispatchResp)) by now repeat split.
  rewrite (try_block_dispatched _ _ _ _ _ _ HD), after_dispatch_correlate.
  destruct (correlate w dispatchResp) as [[[]|message] tr] eqn:Hco.
  - now apply ends_well.
  - now apply ends_correlating with dispatchResp.
Qed.

(** The events of the correlation: a failure comes before any output. *)
Lemma correlate_events (w : World) (dispatchResp : Response)
    (r : result unit) (tr : list Event) :
  correlate w dispatchResp = (r, tr) ->
  forallb calm tr = true
  /\ (forall message, r = Throw message -> forallb silent tr = true).
Proof.
  destruct (ready dispatchResp) as [[|]|message] eqn:Hr.
  - destruct (ready_reads _ _ Hr) as (st & url & _ & Hurl & _).
    rewrite (correlate_ready w _ _ Hr Hurl).
    destruct (read_route url) as [route|message];
      [destruct (request w route []) as [rr|message];
       [destruct (get_prop (data rr) "id") as [runId|message];
        [destruct (Js.template runId) as [text|message]|]|]|];
      intros [= <- <-]; split; try reflexivity; discriminate.
  - destruct (ready_reads _ _ Hr) as (st & url & Hst & _ & _).
    rewrite (correlate_not_ready w _ _ Hr Hst).
    destruct (Js.template st) as [text|message];
      intros [= <- <-]; split; try reflexivity; discriminate.
  - rewrite (correlate_throws w _ _ Hr).
    intros [= <- <-]. split; reflexivity.
Qed.

Lemma try_block_calm (w : World) : forallb calm (snd (try_block w)) = true.
Proof.
  destruct (try_block_ending w) as
    [ | | inputs message reqs _ _ Hp | inputs workflows reqs (_ & _ & Hp) _
    | inputs workflows reqs wf message ((_ & _ & Hp) & _)
    | inputs workflows reqs wf resp message tr ((_ & _ & Hp) & _) Hco
    | inputs workflows reqs wf resp tr ((_ & _ & Hp) & _) Hco ];
    try reflexivity;
    try apply paginate_events in Hp;
    try (destruct (correlate_events _ _ _ _ Hco) as [Hc _]);
    rewrite ?forallb_app, ?Hc, (silent_calm _ (page_requests_silent _ Hp));
    reflexivity.
Qed.

Lemma try_block_throw_silent (w : World) (message : string)
    (tr : list Event) :
  try_block w = (Throw message, tr) -> forallb silent tr = true.
Proof.
  intros H. pose proof (try_block_ending w) as E. rewrite H in E.
  cbn [fst snd] in E. inversion E as
    [ | | inputs m reqs _ _ Hp | inputs workflows reqs (_ & _ & Hp) _
    | inputs workflows reqs wf m ((_ & _ & Hp) & _)
    | inputs workflows reqs wf resp m tr' ((_ & _ & Hp) & _) Hco | ];
    subst; try reflexivity;
    try apply paginate_events in Hp;
    try (destruct (correlate_events _ _ _ _ Hco) as [_ Hs];
         specialize (Hs _ eq_refl));
    rewrite ?forallb_app, ?Hs, (page_requests_silent _ Hp);
    reflexivity.
Qed.

(** ** Selecting events *)

Lemma select_none (f g : Event -> bool) (tr : list Event) :
  (forall e, g e = true -> f e = false) ->
  forallb g tr = true ->
  filter f tr = [] /\ existsb f tr = false.
Proof.
  intros Hfg. induction tr as [|e tr IH]; simpl; [now split|].
  intros H. apply andb_true_iff in H as [He H].
  rewrite (Hfg e He). now apply IH.
Qed.

Lemma silent_no_failure (e : Event) : silent e = true -> is_failure e = false.
Proof. now destruct e. Qed.

Lemma silent_no_notice (e : Event) : silent e = true -> is_notice e = false.
Proof. now destruct e. Qed.

Lemma silent_no_output (key : string) (e : Event) :
  silent e = true -> is_output key e = false.
Proof. now destruct e. Qed.

Lemma calm_no_failure (e : Event) : calm e = true -> is_failure e = false.
Proof. now destruct e. Qed.

Lemma page_no_read (e : Event) :
  is_page_request e = true -> is_read_call e = false.
Proof. now destruct e. Qed.

Lemma page_no_dispatch (e : Event) :
  is_page_request e = true -> is_dispatch_call e = false.
Proof. now destruct e. Qed.

Lemma page_no_output (key : string) (e : Event) :
  is_page_request e = true -> is_output key e = false.
Proof. now destruct e. Qed.

Lemma page_no_failure (e : Event) :
  is_page_request e = true -> is_failure e = false.
Proof. now destruct e. Qed.

Lemma existsb_filter (f : Event -> bool) (tr : list Event) :
  existsb f tr = negb (match filter f tr with [] => true | _ => false end).
Proof.
  induction tr as [|e tr IH]; simpl; [reflexivity|].
  destruct (f e); simpl; [reflexivity | exact IH].
Qed.

(** The run of an invocation whose [try] block throws. *)
Lemma run_throw (w : World) (message : string) (tr : list Event) :
  try_block w = (Throw message, tr) ->
  run w = banner w :: (tr ++ catch_block message)%list.
Proof. intros H. unfold run. now rewrite H. Qed.

Lemma run_ok (w : World) (tr : list Event) :
  try_block w = (Ok tt, tr) -> run w = banner w :: tr.
Proof. intros H. unfold run. now rewrite H. Qed.

(** An invocation whose [try] block ends normally does not fail. *)
Lemma run_ok_not_failed (w : World) (tr : list Event) :
  try_block w = (Ok tt, tr) -> failed (run w) = false.
Proof.
  intros H. rewrite (run_ok _ _ H). pose proof (try_block_calm w) as Hc.
  rewrite H in Hc. cbn [snd] in Hc. unfold failed, banner. cbn [existsb].
  now destruct (select_none is_failure calm tr calm_no_failure Hc) as [_ ->].
Qed.

(** ** A disabled workflow *)

(** C2. For every error raised during the invocation whose message ends
    with "a disabled workflow", the invocation ends without a failure
    signal, with one informational notice as its last event, and neither
    the output [runId] nor the output [workflowId] is set. *)
Theorem disabled_workflow_is_benign (w : World) (message : string)
    (tr : list Event) :
  try_block w = (Throw message, tr) ->
  Str.endsWith message "a disabled workflow" = true ->
  run w = banner w
          :: (tr ++ [Warning "Workflow is disabled, no action was taken"])%list
  /\ failed (run w) = false
  /\ filter is_notice (run w)
     = [Warning "Workflow is disabled, no action was taken"]
  /\ output_set "runId" (run w) = false
  /\ output_set "workflowId" (run w) = false.
Proof.
  intros Htry Hend. pose proof (try_block_throw_silent w _ _ Htry) as Hs.
  rewrite (run_throw w _ _ Htry). unfold catch_block, disabled_phrase.
  rewrite Hend. unfold failed, output_set, banner.
  cbn [filter existsb is_notice is_failure is_output orb].
  rewrite !existsb_app, filter_app.
  destruct (select_none is_failure silent tr silent_no_failure Hs) as [_ ->].
  destruct (select_none is_notice silent tr silent_no_notice Hs) as [-> _].
  destruct (select_none (is_output "runId") silent tr
              (silent_no_output "runId") Hs) as [_ ->].
  destruct (select_none (is_output "workflowId") silent tr
              (silent_no_output "workflowId") Hs) as [_ ->].
  repeat split.
Qed.

Lemma disabled_workflow_is_benign_witness :
  run Sample.scenario_disabled
  = [ Info "🏃 Workflow Dispatch Action v1.0.0";
      PageRequest Sample.params 1;
      Debug "### START List Workflows response data";
      DebugWorkflows Sample.catalog;
      Debug "### END:  List Workflows response data";
      Log "🔎 Found workflow, id: 2, name: deploy, path: .github/workflows/deploy.yml";
      Log "🚀 Calling GitHub API to dispatch workflow...";
      Request "POST /repos/octo/demo/actions/workflows/2/dispatches"
        [("ref", JStr "main"); ("inputs", JObj [])];
      Warning "Workflow is disabled, no action was taken" ]
  /\ failed (run Sample.scenario_disabled) = false.
Proof.
  destruct (disabled_workflow_is_benign Sample.scenario_disabled
              Sample.disabled_message
              (snd (try_block Sample.scenario_disabled))
              eq_refl eq_refl) as (Hrun & Hfailed & _).
  split; [exact Hrun | exact Hfailed].
Defined.

(** ** Failing network calls *)

Lemma network_failure_throws (w : World) (message : string)
    (tr : list Event) :
  NetworkFailure w message tr -> try_block w = (Throw message, tr).
Proof.
  intros [inputs reqs Hin Hoc Hpg
         | inputs workflows reqs wf HD
         | inputs workflows reqs wf resp url route HD Hr Hurl Hroute Hreq].
  - unfold try_block. rewrite Hin. step. rewrite Hoc. step. now rewrite Hpg.
  - now rewrite (try_block_dispatched _ _ _ _ _ _ HD).
  - rewrite (try_block_dispatched _ _ _ _ _ _ HD), after_dispatch_correlate,
      (correlate_ready w _ _ Hr Hurl), Hroute, Hreq.
    reflexivity.
Qed.

Lemma page_requests_last (p : ListParams) (from n : nat) :
  page_requests p from (S n)
  = (page_requests p from n ++ [PageRequest p (from + n)])%list.
Proof. unfold page_requests. now rewrite seq_S, map_app. Qed.

(** The failing call is the last event of the [try] block. *)
Lemma network_failure_last (w : World) (message : string)
    (tr : list Event) :
  NetworkFailure w message tr ->
  exists before failing,
    tr = (before ++ [failing])%list /\ is_network failing = true.
Proof.
  intros [inputs reqs Hin Hoc Hpg
         | inputs workflows reqs wf HD
         | inputs workflows reqs wf resp url route HD Hr Hurl Hroute Hreq].
  - unfold paginate in Hpg.
    pose proof (paginate_from_events (list_params w inputs)
                  (listRepoWorkflows w (list_params w inputs)) 1) as E.
    rewrite Hpg in E. cbn [snd] in E.
    destruct (requested (listRepoWorkflows w (list_params w inputs)))
      as [|n] eqn:Hn.
    + now destruct (listRepoWorkflows w (list_params w inputs)).
    + rewrite page_requests_last in E. subst reqs.
      now eexists _, _.
  - exists (reqs ++ listing_events workflows
              ++ [ Log ("🔎 Found workflow, id: "
                        ++ Str.number_toString (id wf)
                        ++ ", name: " ++ name wf ++ ", path: " ++ path wf);
                   Log "🚀 Calling GitHub API to dispatch workflow..." ])%list,
      (Request (dispatch_route w wf) (dispatch_body w inputs)).
    split; [|reflexivity].
    unfold dispatch_events. now rewrite <- !app_assoc.
  - exists (reqs ++ listing_events workflows
              ++ dispatch_events w inputs wf)%list,
      (Request route []).
    split; [|reflexivity]. now rewrite <- !app_assoc.
Qed.

(** C3, as amended.  For every failing network call (catalog page
    fetch, dispatch call or run-correlation read) whose error message
    does not end with "a disabled workflow", the invocation reports a
    failure that carries the message unmodified, and nothing follows the
    failing call but that report: no retry.  An error raised during the
    invocation leaves it successful exactly when its message ends with
    "a disabled workflow", whichever step raised it. *)
Theorem network_failure_is_reported (w : World) :
  (forall message tr,
     NetworkFailure w message tr ->
     Str.endsWith message "a disabled workflow" = false ->
     run w = banner w :: (tr ++ [SetFailed message])%list
     /\ filter is_failure (run w) = [SetFailed message]
     /\ exists before failing,
          tr = (before ++ [failing])%list /\ is_network failing = true)
  /\ (forall message tr,
        try_block w = (Throw message, tr) ->
        (failed (run w) = false
         <-> Str.endsWith message "a disabled workflow" = true)).
Proof.
  split.
  - intros message tr HN Hend.
    pose proof (network_failure_throws w _ _ HN) as Htry.
    pose proof (try_block_throw_silent w _ _ Htry) as Hs.
    rewrite (run_throw w _ _ Htry). unfold catch_block, disabled_phrase.
    rewrite Hend. repeat split.
    + unfold banner. cbn [filter is_failure]. rewrite filter_app.
      destruct (select_none is_failure silent tr silent_no_failure Hs)
        as [-> _].
      reflexivity.
    + now apply network_failure_last with w message.
  - intros message tr Htry.
    pose proof (try_block_throw_silent w _ _ Htry) as Hs.
    rewrite (run_throw w _ _ Htry). unfold catch_block, disabled_phrase, failed.
    unfold banner. cbn [existsb is_failure orb]. rewrite existsb_app.
    destruct (select_none is_failure silent tr silent_no_failure Hs)
      as [_ ->].
    destruct (Str.endsWith message "a disabled workflow"); simpl;
      split; congruence.
Qed.

Lemma network_failure_is_reported_witness :
  run Sample.scenario_fetch_fails
  = [ Info "🏃 Workflow Dispatch Action v1.0.0";
      PageRequest Sample.params 1;
      PageRequest Sample.params 2;
      SetFailed "Bad credentials" ]
  /\ (failed (run Sample.scenario_disabled) = false
      <-> Str.endsWith Sample.disabled_message "a disabled workflow" = true).
Proof.
  split.
  - refine (proj1 (proj1 (network_failure_is_reported
                            Sample.scenario_fetch_fails)
                     "Bad credentials"
                     [PageRequest Sample.params 1;
                      PageRequest Sample.params 2] _ eq_refl)).
    apply page_fetch_fails with (inputs := JObj []); reflexivity.
  - exact (proj2 (network_failure_is_reported Sample.scenario_disabled)
             Sample.disabled_message
             (snd (try_block Sample.scenario_disabled)) eq_refl).
Defined.

(** C3, as first stated, fails: a catalog page fetch that fails with a
    message ending in "a disabled workflow" is not reported as a failure;
    the invocation ends with the notice of a disabled workflow. *)
Lemma network_failure_not_always_reported :
  NetworkFailure Sample.scenario_fetch_fails_like_disabled
    "Not allowed for a disabled workflow" [PageRequest Sample.params 1]
  /\ run Sample.scenario_fetch_fails_like_disabled
     = [ Info "🏃 Workflow Dispatch Action v1.0.0";
         PageRequest Sample.params 1;
         Warning "Workflow is disabled, no action was taken" ]
  /\ failed (run Sample.scenario_fetch_fails_like_disabled) = false
  /\ ~ every_network_failure_is_reported.
Proof.
  assert (HN : NetworkFailure Sample.scenario_fetch_fails_like_disabled
                 "Not allowed for a disabled workflow"
                 [PageRequest Sample.params 1])
    by (apply page_fetch_fails with (inputs := JObj []); reflexivity).
  repeat split; try assumption.
  intros Hall. specialize (Hall _ _ _ HN). simpl in Hall.
  destruct Hall as [H|[H|[H|[]]]]; discriminate H.
Qed.

(** ** After the dispatch *)

Lemma dispatch_route_is_post (w : World) (foundWorkflow : Workflow) :
  prefix "GET " (dispatch_route w foundWorkflow) = false
  /\ prefix "POST " (dispatch_route w foundWorkflow) = true.
Proof. split; reflexivity. Qed.

Lemma catch_block_no_read (message : string) :
  filter is_read_call (catch_block message) = [].
Proof. unfold catch_block. now destruct (Str.endsWith _ _). Qed.

Section Dispatch.

Variable w : World.
Variable inputs : jsval.
Variable workflows : list Workflow.
Variable reqs : list Event.
Variable foundWorkflow : Workflow.
Variable dispatchResp : Response.

(** The invocation reached the dispatch call and got [dispatchResp]. *)
Hypothesis reached :
  Dispatched w inputs workflows reqs foundWorkflow (Ok dispatchResp).

Lemma ready_queued (url : string) :
  get_prop (data dispatchResp) "status" = Ok (JStr "queued") ->
  get_prop (data dispatchResp) "workflow_url" = Ok (JStr url) ->
  url <> "" ->
  ready dispatchResp = Ok true.
Proof.
  intros Hst Hurl Hne. unfold ready. rewrite Hst, Hurl. simpl.
  apply String.eqb_neq in Hne. now rewrite Hne.
Qed.

Lemma ready_otherwise (st : jsval) :
  get_prop (data dispatchResp) "status" = Ok st ->
  Js.strict_eq_str st "queued" = false
  \/ (exists url, get_prop (data dispatchResp) "workflow_url" = Ok url
                  /\ Js.truthy url = false) ->
  ready dispatchResp = Ok false.
Proof.
  intros Hst H. unfold ready. rewrite Hst.
  destruct (Js.strict_eq_str st "queued"); [|reflexivity].
  destruct H as [H|(url & Hurl & Hf)]; [discriminate|].
  now rewrite Hurl, Hf.
Qed.

Lemma reached_pages : forallb is_page_request reqs = true.
Proof.
  destruct reached as ((_ & _ & Hp) & _). now apply paginate_events in Hp.
Qed.

(** The [try] block, from the dispatch response on. *)
Lemma try_block_reached :
  try_block w
  = match correlate w dispatchResp with
    | (Ok _, tr) =>
        (Ok tt,
         (reqs ++ listing_events workflows
            ++ dispatch_events w inputs foundWorkflow
            ++ tr ++ closing_events foundWorkflow dispatchResp)%list)
    | (Throw message, tr) =>
        (Throw message,
         (reqs ++ listing_events workflows
            ++ dispatch_events w inputs foundWorkflow ++ tr)%list)
    end.
Proof.
  rewrite (try_block_dispatched _ _ _ _ _ _ reached),
    after_dispatch_correlate.
  now destruct (correlate w dispatchResp) as [[[]|message] tr].
Qed.

(** The events before the correlation hold no follow-up read, no output
    and no failure: selecting such events keeps those of the tail. *)
Lemma before_correlation (f : Event -> bool) (tail : list Event) :
  (forall e, is_page_request e = true -> f e = false) ->
  (forall msg, f (Info msg) = false) ->
  (forall msg, f (Debug msg) = false) ->
  (forall ws, f (DebugWorkflows ws) = false) ->
  (forall msg, f (Log msg) = false) ->
  f (Request (dispatch_route w foundWorkflow) (dispatch_body w inputs))
  = false ->
  filter f (banner w :: reqs ++ listing_events workflows
              ++ dispatch_events w inputs foundWorkflow ++ tail)%list
  = filter f tail.
Proof.
  intros Hpage Hinfo Hdebug Hdw Hlog Hreq.
  unfold banner, listing_events, dispatch_events.
  cbn [filter]. rewrite Hinfo, filter_app.
  destruct (select_none f is_page_request reqs Hpage reached_pages)
    as [-> _].
  cbn [app filter]. now rewrite !Hdebug, Hdw, !Hlog, Hreq.
Qed.

Lemma read_route_string (url : string) :
  read_route (JStr url) = Ok ("GET " ++ url).
Proof. reflexivity. Qed.

(** C4. For every dispatch response with status equal to "queued" and a
    non-empty run-collection URL, exactly one follow-up read is issued,
    addressed to that URL, and the output [runId] is set to the id found
    in the response of that read, an id that line 81 can print: a
    number, a string, any value that has a string form. *)
Theorem queued_dispatch_is_correlated (url : string) :
  get_prop (data dispatchResp) "status" = Ok (JStr "queued") ->
  get_prop (data dispatchResp) "workflow_url" = Ok (JStr url) ->
  url <> "" ->
  filter is_read_call (run w) = [Request ("GET " ++ url) []]
  /\ forall workflowRunResponse runId text,
       request w ("GET " ++ url) [] = Ok workflowRunResponse ->
       get_prop (data workflowRunResponse) "id" = Ok runId ->
       Js.template runId = Ok text ->
       filter (is_output "runId") (run w) = [SetOutput "runId" runId].
Proof.
  intros Hst Hurl Hne.
  pose proof (ready_queued _ Hst Hurl Hne) as Hr.
  pose proof try_block_reached as Htry.
  rewrite (correlate_ready w _ _ Hr Hurl), read_route_string in Htry.
  split.
  - destruct (request w ("GET " ++ url) []) as [rr|message];
      [destruct (get_prop (data rr) "id") as [runId|message];
       [destruct (Js.template runId) as [text|message]|]|];
      [ rewrite (run_ok _ _ Htry)
      | rewrite (run_throw _ _ _ Htry), <- !app_assoc ..];
      rewrite (before_correlation is_read_call) by
        (reflexivity || exact page_no_read);
      cbn [app filter is_read_call];
      rewrite prefix_append, ?catch_block_no_read; reflexivity.
  - intros rr runId text Hreq Hid Htext. rewrite Hreq, Hid, Htext in Htry.
    rewrite (run_ok _ _ Htry).
    now rewrite (before_correlation (is_output "runId")) by
      (reflexivity || exact (page_no_output "runId")).
Qed.

(** With a body, and a status that line 84 can print, a dispatch
    response that is not in the ready shape leaves the invocation
    successful: no follow-up read, the status logged, [runId] not set and
    [workflowId] set to the id of the matched workflow. *)
Lemma unconfirmed_dispatch_succeeds (st : jsval) (text : string) :
  get_prop (data dispatchResp) "status" = Ok st ->
  Js.template st = Ok text ->
  Js.strict_eq_str st "queued" = false
  \/ (exists url, get_prop (data dispatchResp) "workflow_url" = Ok url
                  /\ Js.truthy url = false) ->
  filter is_read_call (run w) = []
  /\ failed (run w) = false
  /\ run w
     = banner w
       :: (reqs ++ listing_events workflows
             ++ dispatch_events w inputs foundWorkflow
             ++ [ Log ("Workflow dispatch event was not successful. Status: "
                       ++ text);
                  Info ("🏆 API response status: "
                        ++ Str.number_toString (status dispatchResp));
                  SetOutput "workflowId" (JNum (id foundWorkflow)) ])%list
  /\ output_set "runId" (run w) = false
  /\ filter (is_output "workflowId") (run w)
     = [SetOutput "workflowId" (JNum (id foundWorkflow))].
Proof.
  intros Hst Htext Hshape.
  pose proof (ready_otherwise _ Hst Hshape) as Hr.
  pose proof try_block_reached as Htry.
  rewrite (correlate_not_ready w _ _ Hr Hst), Htext in Htry.
  cbn [app closing_events] in Htry.
  rewrite (run_ok _ _ Htry). unfold failed, output_set.
  rewrite !existsb_filter.
  rewrite (before_correlation is_read_call),
    (before_correlation is_failure),
    (before_correlation (is_output "runId")),
    (before_correlation (is_output "workflowId"));
    try reflexivity.
  - repeat split.
  - exact (page_no_output "workflowId").
  - exact (page_no_output "runId").
  - exact page_no_failure.
  - exact page_no_read.
Qed.

(** Reading [status] on a response whose body is [undefined] throws a
    [TypeError]: the invocation fails after the dispatch. *)
Lemma dispatch_without_body_fails :
  data dispatchResp = JUndefined ->
  run w = banner w
          :: (reqs ++ listing_events workflows
                ++ dispatch_events w inputs foundWorkflow
                ++ [SetFailed
                      "Cannot read properties of undefined (reading 'status')"])%list.
Proof.
  intros Hdata. pose proof try_block_reached as Htry.
  rewrite correlate_throws
    with (message := "Cannot read properties of undefined (reading 'status')")
    in Htry by (unfold ready; now rewrite Hdata).
  rewrite (run_throw _ _ _ Htry), <- !app_assoc. reflexivity.
Qed.

End Dispatch.

Lemma queued_dispatch_is_correlated_witness :
  filter is_read_call (run Sample.scenario_deploy)
  = [Request "GET https://api.example/runs-collection" []]
  /\ filter (is_output "runId") (run Sample.scenario_deploy)
     = [SetOutput "runId" (JNum 555)].
Proof.
  assert (HD : Dispatched Sample.scenario_deploy (JObj []) Sample.catalog
                 [PageRequest Sample.params 1] Sample.deploy
                 (Ok Sample.queued)) by (repeat split).
  destruct (queued_dispatch_is_correlated Sample.scenario_deploy (JObj [])
              Sample.catalog [PageRequest Sample.params 1] Sample.deploy
              Sample.queued HD Sample.runs_url eq_refl eq_refl)
    as [Hread Hout].
  - discriminate.
  - split; [exact Hread|].
    exact (Hout Sample.run_record (JNum 555) "555" eq_refl eq_refl eq_refl).
Defined.

Example unconfirmed_dispatch_with_body :
  filter is_read_call (run Sample.scenario_unconfirmed) = []
  /\ failed (run Sample.scenario_unconfirmed) = false
  /\ In (Log "Workflow dispatch event was not successful. Status: undefined")
       (run Sample.scenario_unconfirmed)
  /\ output_set "runId" (run Sample.scenario_unconfirmed) = false
  /\ filter (is_output "workflowId") (run Sample.scenario_unconfirmed)
     = [SetOutput "workflowId" (JNum 2)].
Proof.
  assert (HD : Dispatched Sample.scenario_unconfirmed (JObj [])
                 Sample.catalog [PageRequest Sample.params 1] Sample.deploy
                 (Ok Sample.no_content)) by (repeat split).
  destruct (unconfirmed_dispatch_succeeds Sample.scenario_unconfirmed
              (JObj []) Sample.catalog [PageRequest Sample.params 1]
              Sample.deploy Sample.no_content HD JUndefined "undefined"
              eq_refl eq_refl (or_introl eq_refl))
    as (Hread & Hfailed & Hrun & Hrunid & Hwf).
  repeat split; try assumption.
  rewrite Hrun. simpl. tauto.
Qed.

(** C5, on the code: a dispatch answered without a body, as a 204
    response is, has a status that is not "queued" and no run-collection
    URL, yet the invocation does not complete successfully.  Reading
    [data.status] on line 72 throws a [TypeError]; the [catch] block
    reports it with [core.setFailed], the line that logs the status is
    not reached and [workflowId] is not set. *)
Theorem unconfirmed_dispatch_without_body :
  request Edge.no_body (dispatch_route Edge.no_body Sample.deploy)
    (dispatch_body Edge.no_body (JObj []))
  = Ok {| status := 204; data := JUndefined |}
  /\ run Edge.no_body
     = [ Info "🏃 Workflow Dispatch Action v1.0.0";
         PageRequest Edge.params 1;
         Debug "### START List Workflows response data";
         DebugWorkflows Sample.catalog;
         Debug "### END:  List Workflows response data";
         Log "🔎 Found workflow, id: 2, name: deploy, path: .github/workflows/deploy.yml";
         Log "🚀 Calling GitHub API to dispatch workflow...";
         Request "POST /repos/octo/demo/actions/workflows/2/dispatches"
           [("ref", JStr "refs/heads/main"); ("inputs", JObj [])];
         SetFailed "Cannot read properties of undefined (reading 'status')" ]
  /\ failed (run Edge.no_body) = true
  /\ output_set "workflowId" (run Edge.no_body) = false.
Proof. repeat split. Qed.

(** ** A reference that nothing matches *)

(** The message of line 61 never passes for the one of a disabled
    workflow: it ends with an emoji. *)
Lemma not_found_message_is_fatal (w : World) :
  Str.endsWith (not_found_message w) disabled_phrase = false.
Proof.
  destruct (Str.endsWith (not_found_message w) disabled_phrase) eqn:E;
    [|reflexivity].
  apply endsWith_last_unit in E; [|discriminate].
  unfold not_found_message in E.
  rewrite (last_unit_tail _ _ "165"%char) in E; [discriminate E|].
  do 5 (apply last_unit_tail). reflexivity.
Qed.

Lemma catch_block_no_dispatch (message : string) :
  filter is_dispatch_call (catch_block message) = [].
Proof. unfold catch_block. now destruct (Str.endsWith _ _). Qed.

(** C6. For every catalog in which no entry matches the workflow
    reference, the invocation reports a failure whose message contains
    the owner, the repo and the reference, and no dispatch call is
    attempted. *)
Theorem unknown_workflow_fails (w : World) (inputs : jsval)
    (workflows : list Workflow) (reqs : list Event) :
  Listed w inputs workflows reqs ->
  (forall workflow,
     In workflow workflows -> ~ Matches (workflowRef w) workflow) ->
  run w = banner w
          :: (reqs ++ listing_events workflows
                ++ [SetFailed (not_found_message w)])%list
  /\ failed (run w) = true
  /\ Str.Contains (not_found_message w) (Js.to_string (owner w))
  /\ Str.Contains (not_found_message w) (Js.to_string (repo w))
  /\ Str.Contains (not_found_message w) (workflowRef w)
  /\ filter is_dispatch_call (run w) = [].
Proof.
  intros HL Hnone. apply find_workflow_none in Hnone.
  pose proof (try_block_listed _ _ _ _ HL) as Htry.
  rewrite (after_listing_missing _ _ _ Hnone) in Htry. cbn [fst snd] in Htry.
  destruct HL as (_ & _ & Hp). apply paginate_events in Hp.
  assert (Hrun : run w = banner w
                         :: (reqs ++ listing_events workflows
                               ++ [SetFailed (not_found_message w)])%list).
  { rewrite (run_throw _ _ _ Htry). unfold catch_block.
    now rewrite not_found_message_is_fatal, <- app_assoc. }
  split; [exact Hrun|]. rewrite Hrun. repeat split.
  - unfold failed. cbn [existsb]. rewrite !existsb_app. cbn.
    now rewrite !orb_true_r.
  - unfold not_found_message. do 2 apply Contains_left.
    apply Contains_here.
  - unfold not_found_message. do 4 apply Contains_left.
    apply Contains_here.
  - unfold not_found_message. apply Contains_here.
  - unfold banner. cbn [filter is_dispatch_call]. rewrite filter_app.
    now destruct (select_none is_dispatch_call is_page_request reqs
                    page_no_dispatch Hp) as [-> _].
Qed.

Lemma unknown_workflow_fails_witness :
  run Sample.scenario_nonexistent
  = [ Info "🏃 Workflow Dispatch Action v1.0.0";
      PageRequest Sample.params 1;
      Debug "### START List Workflows response data";
      DebugWorkflows Sample.catalog;
      Debug "### END:  List Workflows response data";
      SetFailed "Unable to find workflow 'nonexistent' in octo/demo 😥" ]
  /\ filter is_dispatch_call (run Sample.scenario_nonexistent) = [].
Proof.
  assert (HL : Listed Sample.scenario_nonexistent (JObj []) Sample.catalog
                 [PageRequest Sample.params 1]) by (repeat split).
  destruct (unknown_workflow_fails Sample.scenario_nonexistent (JObj [])
              Sample.catalog [PageRequest Sample.params 1] HL)
    as (Hrun & _ & _ & _ & _ & Hnone).
  - intros workflow [<-|[<-|[]]] Hm; apply matches_iff in Hm;
      discriminate Hm.
  - split; [exact Hrun | exact Hnone].
Defined.

(** ** Structured inputs *)

(** C7. For every non-empty structured-inputs string that is not valid
    JSON, the invocation reports a failure and no network call is
    performed before it.  The message is the one of the [SyntaxError]
    raised by the decoder, which is not the message of a disabled
    workflow. *)
Theorem malformed_inputs_fail (w : World) (message : string) :
  getInput w "inputs" <> "" ->
  JSON_parse w (getInput w "inputs") = Throw message ->
  Str.endsWith message "a disabled workflow" = false ->
  run w = [banner w; SetFailed message]
  /\ failed (run w) = true
  /\ filter is_network (run w) = [].
Proof.
  intros Hne Hparse Hend.
  assert (Htry : try_block w = (Throw message, [])).
  { unfold try_block, decode_inputs. cbn [Js.truthy].
    apply String.eqb_neq in Hne. now rewrite Hne, Hparse. }
  rewrite (run_throw _ _ _ Htry). unfold catch_block, disabled_phrase.
  rewrite Hend. repeat split.
Qed.

Lemma malformed_inputs_fail_witness :
  run Sample.scenario_bad_json
  = [ Info "🏃 Workflow Dispatch Action v1.0.0";
      SetFailed "Unexpected token in JSON: {bad json" ]
  /\ failed (run Sample.scenario_bad_json) = true
  /\ filter is_network (run Sample.scenario_bad_json) = [].
Proof.
  apply (malformed_inputs_fail Sample.scenario_bad_json
           "Unexpected token in JSON: {bad json");
    [discriminate | reflexivity | reflexivity].
Defined.

(** ** The dispatch request *)

Lemma read_route_not_post (workflowUrl : jsval) (route : string) :
  read_route workflowUrl = Ok route -> prefix "POST " route = false.
Proof.
  unfold read_route. destruct (Js.template workflowUrl) as [text|message];
    [|discriminate].
  now intros [= <-].
Qed.

Lemma correlate_no_dispatch (w : World) (dispatchResp : Response) :
  filter is_dispatch_call (snd (correlate w dispatchResp)) = [].
Proof.
  destruct (ready dispatchResp) as [[|]|message] eqn:Hr.
  - destruct (ready_reads _ _ Hr) as (st & url & _ & Hurl & _).
    rewrite (correlate_ready w _ _ Hr Hurl).
    destruct (read_route url) as [route|message] eqn:Hroute;
      [|reflexivity].
    pose proof (read_route_not_post _ _ Hroute) as Hpost.
    destruct (request w route []) as [rr|message];
      [destruct (get_prop (data rr) "id") as [runId|message];
       [destruct (Js.template runId) as [text|message]|]|];
      cbn [snd filter is_dispatch_call]; now rewrite Hpost.
  - destruct (ready_reads _ _ Hr) as (st & url & Hst & _ & _).
    rewrite (correlate_not_ready w _ _ Hr Hst).
    now destruct (Js.template st).
  - now rewrite (correlate_throws w _ _ Hr).
Qed.

(** An invocation that reaches the dispatch call issues it once. *)
Lemma run_dispatched (w : World) (inputs : jsval)
    (workflows : list Workflow) (reqs : list Event)
    (foundWorkflow : Workflow) (answer : result Response) :
  Dispatched w inputs workflows reqs foundWorkflow answer ->
  exists tail,
    run w = banner w
            :: (reqs ++ listing_events workflows
                  ++ dispatch_events w inputs foundWorkflow ++ tail)%list
    /\ filter is_dispatch_call tail = [].
Proof.
  intros HD. pose proof (try_block_dispatched _ _ _ _ _ _ HD) as Htry.
  destruct answer as [dispatchResp|message].
  - rewrite after_dispatch_correlate in Htry.
    pose proof (correlate_no_dispatch w dispatchResp) as Hno.
    destruct (correlate w dispatchResp) as [[[]|message] tr];
      cbn [fst snd] in Htry, Hno.
    + exists (tr ++ closing_events foundWorkflow dispatchResp)%list.
      rewrite (run_ok _ _ Htry), filter_app, Hno. now split.
    + exists (tr ++ catch_block message)%list.
      rewrite (run_throw _ _ _ Htry), filter_app, Hno,
        catch_block_no_dispatch, <- !app_assoc.
      now split.
  - exists (catch_block message).
    rewrite (run_throw _ _ _ Htry), catch_block_no_dispatch, <- !app_assoc.
    now split.
Qed.

Lemma dispatch_calls (w : World) (inputs : jsval)
    (workflows : list Workflow) (reqs : list Event)
    (foundWorkflow : Workflow) (answer : result Response) :
  Dispatched w inputs workflows reqs foundWorkflow answer ->
  filter is_dispatch_call (run w)
  = [Request (dispatch_route w foundWorkflow) (dispatch_body w inputs)].
Proof.
  intros HD. destruct (run_dispatched _ _ _ _ _ _ HD) as (tail & -> & Hno).
  destruct HD as ((_ & _ & Hp) & _). apply paginate_events in Hp.
  unfold banner, listing_events, dispatch_events.
  cbn [filter is_dispatch_call]. rewrite filter_app.
  destruct (select_none is_dispatch_call is_page_request reqs
              page_no_dispatch Hp) as [-> _].
  cbn [app filter is_dispatch_call].
  now rewrite (proj2 (dispatch_route_is_post w foundWorkflow)), Hno.
Qed.

(** C9. For every non-empty catalog, an empty workflow reference selects
    the first entry of the catalog, every path ending with the empty
    suffix; the empty reference is not rejected as an invalid input: the
    invocation goes on and dispatches that first entry. *)
Theorem empty_reference_selects_first (w : World) (inputs : jsval)
    (first : Workflow) (others : list Workflow) (reqs : list Event) :
  workflowRef w = "" ->
  Listed w inputs (first :: others) reqs ->
  Str.endsWith (path first) "" = true
  /\ find_workflow (first :: others) (workflowRef w) = Some first
  /\ filter is_dispatch_call (run w)
     = [Request (dispatch_route w first) (dispatch_body w inputs)]
  /\ exists tail,
       run w = banner w
               :: (reqs ++ listing_events (first :: others)
                     ++ dispatch_events w inputs first ++ tail)%list.
Proof.
  intros Href HL.
  assert (Hfind : find_workflow (first :: others) (workflowRef w)
                  = Some first).
  { rewrite Href. unfold find_workflow, matches. cbn [find].
    now rewrite endsWith_empty, !orb_true_r. }
  assert (HD : Dispatched w inputs (first :: others) reqs first
                 (request w (dispatch_route w first)
                    (dispatch_body w inputs)))
    by (split; [exact HL | split; [exact Hfind | reflexivity]]).
  repeat split.
  - apply endsWith_empty.
  - exact Hfind.
  - exact (dispatch_calls _ _ _ _ _ _ HD).
  - destruct (run_dispatched _ _ _ _ _ _ HD) as (tail & Hrun & _).
    now exists tail.
Qed.

Lemma empty_reference_selects_first_witness :
  find_workflow Sample.catalog "" = Some Sample.build
  /\ filter is_dispatch_call (run Sample.scenario_no_reference)
     = [Request "POST /repos/octo/demo/actions/workflows/1/dispatches"
          [("ref", JStr "main"); ("inputs", JObj [])]].
Proof.
  assert (HL : Listed Sample.scenario_no_reference (JObj [])
                 (Sample.build :: [Sample.deploy])
                 [PageRequest Sample.params 1]) by (repeat split).
  destruct (empty_reference_selects_first Sample.scenario_no_reference
              (JObj []) Sample.build [Sample.deploy]
              [PageRequest Sample.params 1] eq_refl HL)
    as (_ & Hfind & Hcall & _).
  split; [exact Hfind | exact Hcall].
Defined.

(** C10. For every structured-inputs string that is valid JSON without
    being a key/value mapping, the decoding raises no error and the
    decoded value is passed unchanged as the [inputs] field of the
    dispatch request.  The shape of the value plays no part: nothing in
    [run] looks at it. *)
Theorem non_mapping_inputs_pass_through (w : World) (v : jsval) :
  getInput w "inputs" <> "" ->
  JSON_parse w (getInput w "inputs") = Ok v ->
  Js.is_mapping v = false ->
  decode_inputs w = Ok v
  /\ forall workflows reqs foundWorkflow,
       getOctokit w (token w) = Ok tt ->
       paginate w (list_params w v) = (Ok workflows, reqs) ->
       find_workflow workflows (workflowRef w) = Some foundWorkflow ->
       filter is_dispatch_call (run w)
       = [Request (dispatch_route w foundWorkflow)
            [("ref", JStr (ref w)); ("inputs", v)]].
Proof.
  intros Hne Hparse _.
  assert (Hin : decode_inputs w = Ok v).
  { unfold decode_inputs. cbn [Js.truthy].
    apply String.eqb_neq in Hne. now rewrite Hne. }
  split; [exact Hin|].
  intros workflows reqs foundWorkflow Hoc Hpg Hfind.
  apply (dispatch_calls w v workflows reqs foundWorkflow
           (request w (dispatch_route w foundWorkflow) (dispatch_body w v))).
  now repeat split.
Qed.

Lemma non_mapping_inputs_pass_through_witness :
  decode_inputs Sample.scenario_array_inputs = Ok (JArr [JNum 1; JNum 2])
  /\ filter is_dispatch_call (run Sample.scenario_array_inputs)
     = [Request "POST /repos/octo/demo/actions/workflows/2/dispatches"
          [("ref", JStr "main"); ("inputs", JArr [JNum 1; JNum 2])]].
Proof.
  destruct (non_mapping_inputs_pass_through Sample.scenario_array_inputs
              (JArr [JNum 1; JNum 2]))
    as [Hin Hcall]; try reflexivity; [discriminate|].
  split; [exact Hin|].
  exact (Hcall Sample.catalog
           [PageRequest (list_params Sample.scenario_array_inputs
                           (JArr [JNum 1; JNum 2])) 1]
           Sample.deploy eq_refl eq_refl eq_refl).
Defined.

(** * Further properties of [run] *)

(** ** The repo input *)

Lemma split_nonempty (sep : ascii) (s : string) : Str.split sep s <> [].
Proof.
  destruct s as [|c s]; simpl; [discriminate|].
  destruct (Ascii.eqb c sep); [discriminate|].
  destruct (Str.split sep s); discriminate.
Qed.

Lemma split_no_slash (s : string) :
  no_slash s = true -> Str.split "/" s = [s].
Proof.
  induction s as [|c s IH]; simpl; [reflexivity|].
  intros H. apply andb_true_iff in H as [Hc Hs].
  apply negb_true_iff in Hc. rewrite Hc, (IH Hs). reflexivity.
Qed.

Lemma split_at_slash (o s : string) :
  no_slash o = true ->
  Str.split "/" (o ++ String "/" s) = o :: Str.split "/" s.
Proof.
  induction o as [|c o IH]; simpl; [reflexivity|].
  intros H. apply andb_true_iff in H as [Hc Ho].
  apply negb_true_iff in Hc. rewrite Hc, (IH Ho). reflexivity.
Qed.

Lemma split_pieces (s : string) :
  forallb no_slash (Str.split "/" s) = true.
Proof.
  induction s as [|c s IH]; simpl; [reflexivity|].
  destruct (Ascii.eqb c "/") eqn:Hc; simpl; [exact IH|].
  destruct (Str.split "/" s) as [|piece pieces]; simpl in *.
  - now rewrite Hc.
  - now rewrite Hc.
Qed.

Lemma split_join (s : string) : Str.join "/" (Str.split "/" s) = s.
Proof.
  unfold Str.join. induction s as [|c s IH]; simpl; [reflexivity|].
  destruct (Ascii.eqb_spec c "/") as [->|Hc].
  - pose proof (split_nonempty "/" s) as Hne.
    destruct (Str.split "/" s) as [|piece pieces]; [contradiction|].
    simpl in *. now rewrite IH.
  - pose proof (split_nonempty "/" s) as Hne.
    destruct (Str.split "/" s) as [|piece pieces]; [contradiction|].
    simpl in *. destruct pieces; simpl in *; now rewrite IH.
Qed.

(** X2. The pieces into which line 31 splits the repo input hold no
    slash, and joined again with slashes they give the input back; so an
    owner or a repo taken from the input never holds a slash. *)
Theorem repo_input_pieces (w : World) :
  Str.join "/" (Str.split "/" (getInput w "repo")) = getInput w "repo"
  /\ (getInput w "repo" <> "" ->
      (exists o, owner w = JStr o /\ no_slash o = true)
      /\ (repo w = JUndefined
          \/ exists r, repo w = JStr r /\ no_slash r = true)).
Proof.
  split; [apply split_join|].
  intros Hne. unfold owner, repo, owner_repo. cbn [Js.truthy].
  apply String.eqb_neq in Hne. rewrite Hne. cbn [negb].
  pose proof (split_pieces (getInput w "repo")) as Hp.
  pose proof (split_nonempty "/" (getInput w "repo")) as Hn.
  destruct (Str.split "/" (getInput w "repo")) as [|o [|r rest]];
    [contradiction| |]; cbn [fst snd forallb] in *.
  - rewrite andb_true_r in Hp. split; [now exists o | now left].
  - apply andb_true_iff in Hp as [Ho Hp].
    apply andb_true_iff in Hp as [Hr _].
    split; [now exists o | right; now exists r].
Qed.

Lemma repo_input_pieces_witness :
  (exists o, owner Edge.long_repo = JStr o /\ no_slash o = true)
  /\ (repo Edge.long_repo = JUndefined
      \/ exists r, repo Edge.long_repo = JStr r /\ no_slash r = true).
Proof.
  apply (proj2 (repo_input_pieces Edge.long_repo)). discriminate.
Defined.

(** X3. A repo input of the form [o/r], with or without further
    segments, gives the owner [o] and the repo [r]: segments after the
    second are ignored. *)
Theorem repo_input_two_segments (w : World) (o r : string) :
  no_slash o = true ->
  no_slash r = true ->
  getInput w "repo" = o ++ "/" ++ r
  \/ (exists more, getInput w "repo" = o ++ "/" ++ r ++ "/" ++ more) ->
  owner w = JStr o /\ repo w = JStr r.
Proof.
  intros Ho Hr Hin. unfold owner, repo, owner_repo. cbn [Js.truthy].
  assert (Hsplit : exists rest,
             Str.split "/" (getInput w "repo") = o :: r :: rest).
  { destruct Hin as [->|(more & ->)].
    - exists []. change (o ++ "/" ++ r) with (o ++ String "/" r).
      now rewrite (split_at_slash _ _ Ho), (split_no_slash _ Hr).
    - exists (Str.split "/" more).
      change (o ++ "/" ++ r ++ "/" ++ more)
        with (o ++ String "/" (r ++ String "/" more)).
      now rewrite (split_at_slash _ _ Ho), (split_at_slash _ _ Hr). }
  destruct Hsplit as (rest & Hsplit).
  assert (Hne : (getInput w "repo" =? "") = false).
  { apply String.eqb_neq. intros E. rewrite E in Hsplit. discriminate. }
  now rewrite Hne, Hsplit.
Qed.

Lemma repo_input_two_segments_witness :
  owner Edge.long_repo = JStr "acme" /\ repo Edge.long_repo = JStr "tools".
Proof.
  apply (repo_input_two_segments Edge.long_repo "acme" "tools");
    [reflexivity | reflexivity |].
  right. now exists "extra".
Defined.

(** X4. A repo input that holds no slash is taken as the owner and leaves
    the repo undefined: the dispatch is then addressed to
    [/repos/<input>/undefined/...]. *)
Theorem repo_input_without_slash (w : World) (foundWorkflow : Workflow) :
  getInput w "repo" <> "" ->
  no_slash (getInput w "repo") = true ->
  owner w = JStr (getInput w "repo")
  /\ repo w = JUndefined
  /\ dispatch_route w foundWorkflow
     = "POST /repos/" ++ getInput w "repo"
       ++ "/undefined/actions/workflows/"
       ++ Str.number_toString (id foundWorkflow) ++ "/dispatches".
Proof.
  intros Hne Hns.
  assert (Hor : owner_repo w = (JStr (getInput w "repo"), JUndefined)).
  { unfold owner_repo. cbn [Js.truthy]. apply String.eqb_neq in Hne.
    now rewrite Hne, (split_no_slash _ Hns). }
  unfold dispatch_route, owner, repo. rewrite Hor. repeat split.
Qed.

Lemma repo_input_without_slash_witness :
  owner Edge.bare_repo = JStr "tools"
  /\ repo Edge.bare_repo = JUndefined
  /\ dispatch_route Edge.bare_repo Sample.deploy
     = "POST /repos/tools/undefined/actions/workflows/2/dispatches".
Proof.
  apply (repo_input_without_slash Edge.bare_repo Sample.deploy);
    [discriminate | reflexivity].
Defined.

(** ** The [catch] block *)

(** X5. The [catch] block gives the notice of a disabled workflow exactly
    for the messages that end with "a disabled workflow", and reports
    every other message unmodified with [core.setFailed]; a message whose
    last character is not [w], such as one closed by a full stop, is
    always reported. *)
Theorem catch_block_classification (message : string) :
  (catch_block message = [Warning "Workflow is disabled, no action was taken"]
   <-> exists before, message = before ++ "a disabled workflow")
  /\ (catch_block message = [SetFailed message]
      <-> ~ exists before, message = before ++ "a disabled workflow")
  /\ (Str.last_unit message <> Some "w"%char ->
      catch_block message = [SetFailed message]).
Proof.
  unfold catch_block, disabled_phrase.
  pose proof (endsWith_iff message "a disabled workflow") as Hiff.
  destruct (Str.endsWith message "a disabled workflow") eqn:E.
  - assert (Hs : exists before, message = before ++ "a disabled workflow")
      by now apply Hiff.
    split; [|split].
    + split; [intros _; exact Hs | reflexivity].
    + split; [discriminate | intros Hn; contradiction].
    + intros Hl. exfalso. apply Hl.
      rewrite (endsWith_last_unit message "a disabled workflow");
        [reflexivity | discriminate | exact E].
  - assert (Hs : ~ exists before, message = before ++ "a disabled workflow")
      by (intros H; apply Hiff in H; discriminate).
    split; [|split].
    + split; [discriminate | intros H; contradiction].
    + split; [intros _; exact Hs | reflexivity].
    + reflexivity.
Qed.

Lemma catch_block_classification_witness :
  catch_block "HttpError: a disabled workflow."
  = [SetFailed "HttpError: a disabled workflow."]
  /\ catch_block Sample.disabled_message
     = [Warning "Workflow is disabled, no action was taken"].
Proof.
  split.
  - apply (proj2 (proj2 (catch_block_classification
                           "HttpError: a disabled workflow."))).
    discriminate.
  - apply (proj1 (catch_block_classification Sample.disabled_message)).
    now exists "Cannot trigger a 'workflow_dispatch' on ".
Defined.

(** ** The verdict of an invocation *)

Lemma silent_no_verdict (e : Event) : silent e = true -> is_verdict e = false.
Proof. now destruct e. Qed.

Lemma page_no_verdict (e : Event) :
  is_page_request e = true -> is_verdict e = false.
Proof. now destruct e. Qed.

Lemma catch_block_verdict (message : string) :
  exists verdict,
    catch_block message = [verdict]
    /\ is_verdict verdict = true
    /\ is_any_output verdict = false.
Proof.
  unfold catch_block. destruct (Str.endsWith message disabled_phrase);
    eexists; repeat split.
Qed.

(** The events of the correlation, in each of its four courses. *)
Lemma correlate_courses (w : World) (dispatchResp : Response) :
  (exists message,
     correlate w dispatchResp = (Throw message, []))
  \/ (exists text,
        correlate w dispatchResp
        = (Ok tt,
           [Log ("Workflow dispatch event was not successful. Status: "
                 ++ text)]))
  \/ (exists url route message,
        read_route url = Ok route
        /\ correlate w dispatchResp
           = (Throw message, [Request route []]))
  \/ (exists url route runId text,
        read_route url = Ok route
        /\ correlate w dispatchResp
           = (Ok tt,
              [ Request route [];
                Log ("Workflow run ID: " ++ text);
                SetOutput "runId" runId ])).
Proof.
  destruct (ready dispatchResp) as [[|]|message] eqn:Hr.
  - destruct (ready_reads _ _ Hr) as (st & url & _ & Hurl & _).
    rewrite (correlate_ready w _ _ Hr Hurl).
    destruct (read_route url) as [route|message] eqn:Hroute;
      [|left; now exists message].
    destruct (request w route []) as [rr|message];
      [destruct (get_prop (data rr) "id") as [runId|message];
       [destruct (Js.template runId) as [text|message]|]|].
    + right; right; right. now exists url, route, runId, text.
    + right; right; left. now exists url, route, message.
    + right; right; left. now exists url, route, message.
    + right; right; left. now exists url, route, message.
  - destruct (ready_reads _ _ Hr) as (st & url & Hst & _ & _).
    rewrite (correlate_not_ready w _ _ Hr Hst).
    destruct (Js.template st) as [text|message].
    + right; left. now exists text.
    + left. now exists message.
  - left. exists message. now apply correlate_throws.
Qed.

(** X6. Every invocation ends with exactly one verdict, which is its last
    event: [core.setFailed], the notice of a disabled workflow, or the
    output [workflowId]; no such event comes earlier. *)
Theorem one_verdict (w : World) :
  exists before verdict,
    run w = (before ++ [verdict])%list
    /\ is_verdict verdict = true
    /\ filter is_verdict before = [].
Proof.
  destruct (try_block w) as [[[]|message] tr] eqn:Htry.
  - pose proof (try_block_ending w) as E. rewrite Htry in E.
    cbn [fst snd] in E.
    inversion E as [ | | | | | | inputs workflows reqs wf resp tr'
                                  ((_ & _ & Hp) & _) Hco ]; subst.
    apply paginate_events in Hp.
    exists (banner w :: reqs ++ listing_events workflows
              ++ dispatch_events w inputs wf ++ tr'
              ++ [Info ("🏆 API response status: "
                        ++ Str.number_toString (status resp))])%list,
      (SetOutput "workflowId" (JNum (id wf))).
    split; [|split; [reflexivity|]].
    + rewrite (run_ok _ _ Htry). unfold closing_events.
      cbn [app]. now rewrite <- !app_assoc.
    + unfold banner. cbn [filter is_verdict is_failure is_notice is_output orb].
      rewrite !filter_app.
      destruct (select_none is_verdict is_page_request reqs
                  page_no_verdict Hp) as [-> _].
      destruct (correlate_courses w resp)
        as [(m & H)|[(st & H)|[(u & rt & m & _ & H)
                              |(u & rt & rid & txt & _ & H)]]];
        rewrite H in Hco; inversion Hco; subst; reflexivity.
  - destruct (catch_block_verdict message) as (verdict & Hc & Hv & _).
    exists (banner w :: tr), verdict.
    split; [|split; [exact Hv|]].
    + now rewrite (run_throw _ _ _ Htry), Hc.
    + unfold banner. cbn [filter is_verdict is_failure is_notice is_output orb].
      pose proof (try_block_throw_silent _ _ _ Htry) as Hs.
      now destruct (select_none is_verdict silent tr silent_no_verdict Hs)
        as [-> _].
Qed.

(** X7. The outputs are set on success only: an invocation that fails or
    gives the notice of a disabled workflow sets no output, and whenever
    [runId] is set, [workflowId] is set as well. *)
Theorem outputs_only_on_success (w : World) :
  (failed (run w) = true -> filter is_any_output (run w) = [])
  /\ (filter is_notice (run w) <> [] -> filter is_any_output (run w) = [])
  /\ (output_set "runId" (run w) = true ->
      output_set "workflowId" (run w) = true).
Proof.
  destruct (try_block w) as [[[]|message] tr] eqn:Htry.
  - pose proof (try_block_calm w) as Hc. rewrite Htry in Hc.
    cbn [snd] in Hc.
    assert (Hwf : output_set "workflowId" (run w) = true).
    { pose proof (try_block_ending w) as E. rewrite Htry in E.
      cbn [fst snd] in E.
      inversion E as [ | | | | | | inputs workflows reqs wf resp tr' _ _ ];
        subst.
      rewrite (run_ok _ _ Htry). unfold output_set. cbn [existsb].
      rewrite !existsb_app. cbn. now rewrite !orb_true_r. }
    rewrite (run_ok_not_failed _ _ Htry).
    split; [discriminate|]. split; [|intros _; exact Hwf].
    intros Hn. exfalso. apply Hn. rewrite (run_ok _ _ Htry).
    unfold banner. cbn [filter is_notice].
    refine (proj1 (select_none is_notice calm tr _ Hc)).
    intros e He. now destruct e.
  - pose proof (try_block_throw_silent _ _ _ Htry) as Hs.
    destruct (catch_block_verdict message) as (verdict & Hcb & _ & Hout).
    assert (Hnone : filter is_any_output (run w) = []).
    { rewrite (run_throw _ _ _ Htry), Hcb. unfold banner.
      cbn [filter is_any_output]. rewrite filter_app.
      cbn [filter]. rewrite Hout.
      assert (Hsil : forall e, silent e = true -> is_any_output e = false)
        by (intros e He; now destruct e).
      now rewrite (proj1 (select_none is_any_output silent tr Hsil Hs)). }
    repeat split; try (intros; exact Hnone).
    intros H. exfalso. unfold output_set in H.
    rewrite existsb_filter in H.
    assert (Hsub : filter (is_output "runId") (run w) = []).
    { clear H. induction (run w) as [|e l IH]; [reflexivity|].
      simpl in *. destruct e; simpl in *; try (apply IH; assumption);
        discriminate. }
    now rewrite Hsub in H.
Qed.

Lemma outputs_only_on_success_witness :
  filter is_any_output (run Sample.scenario_nonexistent) = []
  /\ filter is_any_output (run Sample.scenario_disabled) = []
  /\ output_set "workflowId" (run Sample.scenario_deploy) = true.
Proof.
  split; [|split].
  - now apply (proj1 (outputs_only_on_success Sample.scenario_nonexistent)).
  - apply (proj1 (proj2 (outputs_only_on_success Sample.scenario_disabled))).
    discriminate.
  - now apply (proj2 (proj2 (outputs_only_on_success
                               Sample.scenario_deploy))).
Defined.

(** ** The network calls of an invocation *)


Lemma catch_block_no_network (message : string) :
  filter is_network (catch_block message) = [].
Proof. unfold catch_block. now destruct (Str.endsWith _ _). Qed.



(** X9. When the client cannot be created (line 42), the invocation ends
    at once in its [catch] block: no page is requested, nothing is
    dispatched. *)
Theorem client_failure_stops (w : World) (inputs : jsval)
    (message : string) :
  decode_inputs w = Ok inputs ->
  getOctokit w (token w) = Throw message ->
  run w = banner w :: catch_block message
  /\ filter is_network (run w) = [].
Proof.
  intros Hin Hoc.
  assert (Htry : try_block w = (Throw message, [])).
  { unfold try_block. rewrite Hin. step. now rewrite Hoc. }
  rewrite (run_throw _ _ _ Htry). cbn [app]. split; [reflexivity|].
  unfold banner. cbn [filter is_network]. apply catch_block_no_network.
Qed.

Lemma client_failure_stops_witness :
  run Edge.no_token
  = [ Info "🏃 Workflow Dispatch Action v1.0.0";
      SetFailed "Parameter token or opts.auth is required" ]
  /\ filter is_network (run Edge.no_token) = [].
Proof.
  exact (client_failure_stops Edge.no_token (JObj [])
           "Parameter token or opts.auth is required" eq_refl eq_refl).
Defined.

(** X10. When the inputs [repo] and [ref] are empty, the listing and the
    dispatch use the repository and the ref of the invoking context. *)
Theorem defaults_from_context (w : World) (inputs : jsval)
    (workflows : list Workflow) (reqs : list Event)
    (foundWorkflow : Workflow) (answer : result Response) :
  getInput w "repo" = "" ->
  getInput w "ref" = "" ->
  Dispatched w inputs workflows reqs foundWorkflow answer ->
  list_params w inputs
  = {| lp_owner := JStr (context_owner w); lp_repo := JStr (context_repo w);
       lp_ref := context_ref w; lp_inputs := inputs |}
  /\ filter is_dispatch_call (run w)
     = [Request ("POST /repos/" ++ context_owner w ++ "/" ++ context_repo w
                 ++ "/actions/workflows/"
                 ++ Str.number_toString (id foundWorkflow) ++ "/dispatches")
          [("ref", JStr (context_ref w)); ("inputs", inputs)]].
Proof.
  intros Hrepo Href HD.
  rewrite (dispatch_calls _ _ _ _ _ _ HD).
  unfold list_params, dispatch_route, dispatch_body, owner, repo, owner_repo,
    ref.
  now rewrite Hrepo, Href.
Qed.

Lemma defaults_from_context_witness :
  list_params Edge.defaults (JObj []) = Edge.params
  /\ filter is_dispatch_call (run Edge.defaults)
     = [Request "POST /repos/octo/demo/actions/workflows/2/dispatches"
          [("ref", JStr "refs/heads/main"); ("inputs", JObj [])]].
Proof.
  apply (defaults_from_context Edge.defaults (JObj []) Sample.catalog
           [PageRequest Edge.params 1] Sample.deploy (Ok Sample.queued));
    try reflexivity.
  repeat split.
Defined.

(** X11. When the input [inputs] is empty, the decoder is not consulted
    and the dispatch carries an empty object as its [inputs]. *)
Theorem empty_inputs_default (w : World) :
  getInput w "inputs" = "" ->
  decode_inputs w = Ok (JObj [])
  /\ forall workflows reqs foundWorkflow,
       getOctokit w (token w) = Ok tt ->
       paginate w (list_params w (JObj [])) = (Ok workflows, reqs) ->
       find_workflow workflows (workflowRef w) = Some foundWorkflow ->
       filter is_dispatch_call (run w)
       = [Request (dispatch_route w foundWorkflow)
            [("ref", JStr (ref w)); ("inputs", JObj [])]].
Proof.
  intros Hempty.
  assert (Hin : decode_inputs w = Ok (JObj []))
    by (unfold decode_inputs; now rewrite Hempty).
  split; [exact Hin|].
  intros workflows reqs foundWorkflow Hoc Hpg Hfind.
  apply (dispatch_calls w (JObj []) workflows reqs foundWorkflow
           (request w (dispatch_route w foundWorkflow)
              (dispatch_body w (JObj [])))).
  now repeat split.
Qed.

Lemma empty_inputs_default_witness :
  decode_inputs Edge.defaults = Ok (JObj [])
  /\ filter is_dispatch_call (run Edge.defaults)
     = [Request "POST /repos/octo/demo/actions/workflows/2/dispatches"
          [("ref", JStr "refs/heads/main"); ("inputs", JObj [])]].
Proof.
  destruct (empty_inputs_default Edge.defaults eq_refl) as [Hin Hcall].
  split; [exact Hin|].
  exact (Hcall Sample.catalog [PageRequest Edge.params 1] Sample.deploy
           eq_refl eq_refl eq_refl).
Defined.

(** X12. A repository without workflows makes every invocation fail with
    the not-found message, whatever the reference, the empty one
    included. *)
Theorem empty_catalog_fails (w : World) (inputs : jsval)
    (reqs : list Event) :
  Listed w inputs [] reqs ->
  run w = banner w
          :: (reqs ++ listing_events []
                ++ [SetFailed (not_found_message w)])%list
  /\ failed (run w) = true.
Proof.
  intros HL. pose proof (try_block_listed _ _ _ _ HL) as Htry.
  rewrite (after_listing_missing w inputs [] eq_refl) in Htry.
  cbn [fst snd] in Htry.
  assert (Hrun : run w = banner w
                         :: (reqs ++ listing_events []
                               ++ [SetFailed (not_found_message w)])%list).
  { rewrite (run_throw _ _ _ Htry). unfold catch_block.
    now rewrite not_found_message_is_fatal, <- app_assoc. }
  split; [exact Hrun|]. rewrite Hrun. unfold failed. cbn [existsb].
  rewrite !existsb_app. cbn. now rewrite !orb_true_r.
Qed.

Lemma empty_catalog_fails_witness :
  run Edge.empty_catalog
  = [ Info "🏃 Workflow Dispatch Action v1.0.0";
      PageRequest Edge.params 1;
      Debug "### START List Workflows response data";
      DebugWorkflows [];
      Debug "### END:  List Workflows response data";
      SetFailed "Unable to find workflow '' in octo/demo 😥" ]
  /\ failed (run Edge.empty_catalog) = true.
Proof.
  apply (empty_catalog_fails Edge.empty_catalog (JObj [])
           [PageRequest Edge.params 1]).
  repeat split.
Defined.

(** ** The response of the dispatch and the response of the read *)

Lemma lookup_absent (k : string) (fields : list (string * jsval)) :
  (forall v, ~ In (k, v) fields) -> Js.lookup k fields = JUndefined.
Proof.
  induction fields as [|[k' v'] fields IH]; simpl; [reflexivity|].
  intros H. destruct (String.eqb_spec k' k) as [->|Hne].
  - exfalso. apply (H v'). now left.
  - apply IH. intros v Hv. apply (H v). now right.
Qed.

Lemma failed_at_end (tr : list Event) (message : string) :
  failed (tr ++ [SetFailed message]) = true.
Proof.
  unfold failed. rewrite existsb_app. cbn. apply orb_true_r.
Qed.

Section Correlation.

Variable w : World.
Variable inputs : jsval.
Variable workflows : list Workflow.
Variable reqs : list Event.
Variable foundWorkflow : Workflow.
Variable dispatchResp : Response.

Hypothesis reached :
  Dispatched w inputs workflows reqs foundWorkflow (Ok dispatchResp).

Local Notation "'sofar'" := (upto w inputs workflows reqs foundWorkflow)
  (only parsing).

Lemma upto_silent : forallb silent sofar = true.
Proof.
  unfold upto. rewrite !forallb_app.
  rewrite (page_requests_silent _
             (reached_pages w inputs workflows reqs foundWorkflow
                dispatchResp reached)).
  reflexivity.
Qed.

Lemma upto_select (f : Event -> bool) :
  (forall e, silent e = true -> f e = false) ->
  f (banner w) = false ->
  forall tail,
    filter f (banner w :: sofar ++ tail)%list = filter f tail.
Proof.
  intros Hf Hb tail. cbn [filter]. rewrite Hb, filter_app.
  now rewrite (proj1 (select_none f silent sofar Hf upto_silent)).
Qed.

Lemma upto_no_read (tail : list Event) :
  filter is_read_call
    (banner w :: sofar ++ tail)%list
  = filter is_read_call tail.
Proof.
  unfold upto. rewrite <- !app_assoc.
  apply (before_correlation w inputs workflows reqs foundWorkflow
           dispatchResp reached is_read_call tail);
    try reflexivity.
  exact page_no_read.
Qed.

(** X13. A dispatch answered without a body ([data] undefined or null,
    as for a 204 response) makes the invocation fail after the dispatch
    call: reading [status] throws, no follow-up read is made and no
    output is set, [workflowId] included. *)
Theorem bodyless_dispatch_fails :
  data dispatchResp = JUndefined \/ data dispatchResp = JNull ->
  failed (run w) = true
  /\ filter is_any_output (run w) = []
  /\ filter is_read_call (run w) = []
  /\ filter is_dispatch_call (run w)
     = [Request (dispatch_route w foundWorkflow) (dispatch_body w inputs)]
  /\ exists message,
       run w = banner w :: (sofar ++ [SetFailed message])%list
       /\ get_prop (data dispatchResp) "status" = Throw message.
Proof.
  intros Hdata.
  assert (Hthrow : exists message,
             get_prop (data dispatchResp) "status" = Throw message
             /\ Str.endsWith message disabled_phrase = false).
  { destruct Hdata as [-> | ->]; eexists; split; reflexivity. }
  destruct Hthrow as (message & Hget & Hend).
  assert (Hr : ready dispatchResp = Throw message)
    by (unfold ready; now rewrite Hget).
  pose proof (try_block_reached w inputs workflows reqs foundWorkflow
                dispatchResp reached) as Htry.
  rewrite (correlate_throws w _ _ Hr) in Htry.
  assert (Hrun : run w
                 = banner w
                   :: (sofar
                         ++ [SetFailed message])%list).
  { rewrite (run_throw _ _ _ Htry). unfold catch_block, upto.
    now rewrite Hend, <- !app_assoc. }
  split; [|split; [|split; [|split]]].
  - rewrite Hrun.
    apply (failed_at_end
             (banner w :: sofar)).
  - rewrite Hrun. rewrite upto_select; try reflexivity.
    intros e He. now destruct e.
  - rewrite Hrun. now rewrite upto_no_read.
  - apply (dispatch_calls _ _ _ _ _ _ reached).
  - now exists message.
Qed.

(** X14. When the response is in the ready shape, the route of the read
    can be built, the read answers with a body and its id can be
    printed, the invocation succeeds and its last events are the read,
    the log of the run id, the output [runId], the status line and the
    output [workflowId], in this order. *)
Theorem correlated_run (url runId : jsval) (route text : string)
    (workflowRunResponse : Response) :
  ready dispatchResp = Ok true ->
  get_prop (data dispatchResp) "workflow_url" = Ok url ->
  read_route url = Ok route ->
  request w route [] = Ok workflowRunResponse ->
  get_prop (data workflowRunResponse) "id" = Ok runId ->
  Js.template runId = Ok text ->
  run w
  = banner w
    :: (sofar
          ++ [ Request route [];
               Log ("Workflow run ID: " ++ text);
               SetOutput "runId" runId;
               Info ("🏆 API response status: "
                     ++ Str.number_toString (status dispatchResp));
               SetOutput "workflowId" (JNum (id foundWorkflow)) ])%list
  /\ failed (run w) = false.
Proof.
  intros Hr Hurl Hroute Hreq Hid Htext.
  pose proof (try_block_reached w inputs workflows reqs foundWorkflow
                dispatchResp reached) as Htry.
  rewrite (correlate_ready w _ _ Hr Hurl), Hroute, Hreq, Hid, Htext in Htry.
  split.
  - rewrite (run_ok _ _ Htry). unfold upto, closing_events.
    now rewrite <- !app_assoc.
  - apply (run_ok_not_failed _ _ Htry).
Qed.

(** X15. A run record that has no [id] field does not stop the
    invocation: [runId] is set to [undefined] and [workflowId] is set as
    usual. *)
Theorem run_record_without_id (url : jsval) (route : string)
    (workflowRunResponse : Response) (fields : list (string * jsval)) :
  ready dispatchResp = Ok true ->
  get_prop (data dispatchResp) "workflow_url" = Ok url ->
  read_route url = Ok route ->
  request w route [] = Ok workflowRunResponse ->
  data workflowRunResponse = JObj fields ->
  (forall v, ~ In ("id", v) fields) ->
  filter is_any_output (run w)
  = [ SetOutput "runId" JUndefined;
      SetOutput "workflowId" (JNum (id foundWorkflow)) ]
  /\ failed (run w) = false.
Proof.
  intros Hr Hurl Hroute Hreq Hdata Habsent.
  assert (Hid : get_prop (data workflowRunResponse) "id" = Ok JUndefined)
    by (rewrite Hdata; cbn [get_prop]; now rewrite (lookup_absent _ _ Habsent)).
  pose proof (try_block_reached w inputs workflows reqs foundWorkflow
                dispatchResp reached) as Htry.
  rewrite (correlate_ready w _ _ Hr Hurl), Hroute, Hreq, Hid in Htry.
  cbn [Js.template] in Htry.
  split; [|apply (run_ok_not_failed _ _ Htry)].
  assert (Hrun : run w
                 = (banner w :: sofar
                      ++ [ Request route [];
                           Log ("Workflow run ID: " ++ "undefined");
                           SetOutput "runId" JUndefined;
                           Info ("🏆 API response status: "
                                 ++ Str.number_toString (status dispatchResp));
                           SetOutput "workflowId" (JNum (id foundWorkflow)) ])%list).
  { rewrite (run_ok _ _ Htry). unfold upto, closing_events.
    now rewrite <- !app_assoc. }
  rewrite Hrun, upto_select; try reflexivity.
  intros e He. now destruct e.
Qed.

(** X16. When the follow-up read fails, or answers without a body, the
    invocation ends in its [catch] block although the workflow was
    dispatched: no output is set, [workflowId] included. *)
Theorem failed_correlation_sets_nothing (url : jsval)
    (route message : string) :
  ready dispatchResp = Ok true ->
  get_prop (data dispatchResp) "workflow_url" = Ok url ->
  read_route url = Ok route ->
  request w route [] = Throw message
  \/ (exists workflowRunResponse,
        request w route [] = Ok workflowRunResponse
        /\ get_prop (data workflowRunResponse) "id" = Throw message) ->
  run w
  = banner w
    :: (sofar ++ Request route [] :: catch_block message)%list
  /\ filter is_any_output (run w) = []
  /\ filter is_dispatch_call (run w)
     = [Request (dispatch_route w foundWorkflow) (dispatch_body w inputs)].
Proof.
  intros Hr Hurl Hroute Hfail.
  pose proof (try_block_reached w inputs workflows reqs foundWorkflow
                dispatchResp reached) as Htry.
  rewrite (correlate_ready w _ _ Hr Hurl), Hroute in Htry.
  assert (Htry' : try_block w
                  = (Throw message,
                     (sofar ++ [Request route []])%list)).
  { unfold upto. rewrite <- !app_assoc.
    destruct Hfail as [Hreq|(rr & Hreq & Hid)];
      rewrite Hreq in Htry; [|rewrite Hid in Htry]; exact Htry. }
  assert (Hrun : run w
                 = banner w
                   :: (sofar ++ Request route []
                              :: catch_block message)%list).
  { rewrite (run_throw _ _ _ Htry'). now rewrite <- app_assoc. }
  split; [exact Hrun|]. split.
  - rewrite Hrun. rewrite upto_select; try reflexivity.
    + cbn [filter is_any_output].
      destruct (catch_block_verdict message) as (v & -> & _ & Hv).
      cbn [filter]. now rewrite Hv.
    + intros e He. now destruct e.
  - apply (dispatch_calls _ _ _ _ _ _ reached).
Qed.

(** X17. The correlation is decided by the truthiness of
    [workflow_url], whatever its type.  With the status "queued", a
    truthy value that has a string form, a number for instance, is read
    once, at the route made of that string form; a truthy value that has
    none, an object with a field [toString] of its own, makes line 77
    throw: no read is made and the invocation ends in its [catch] block
    without any output. *)
Theorem truthy_url_is_read (url : jsval) :
  get_prop (data dispatchResp) "status" = Ok (JStr "queued") ->
  get_prop (data dispatchResp) "workflow_url" = Ok url ->
  Js.truthy url = true ->
  (forall text,
     Js.template url = Ok text ->
     filter is_read_call (run w) = [Request ("GET " ++ text) []])
  /\ (forall message,
        Js.template url = Throw message ->
        run w = banner w :: (sofar ++ catch_block message)%list
        /\ filter is_read_call (run w) = []
        /\ filter is_any_output (run w) = []).
Proof.
  intros Hst Hurl Ht.
  assert (Hr : ready dispatchResp = Ok true)
    by (unfold ready; now rewrite Hst, Hurl, Ht).
  pose proof (try_block_reached w inputs workflows reqs foundWorkflow
                dispatchResp reached) as Htry.
  rewrite (correlate_ready w _ _ Hr Hurl) in Htry.
  unfold read_route in Htry. split.
  - intros text Htext. rewrite Htext in Htry.
    assert (Hshape : exists tail,
               run w
               = (banner w :: sofar
                    ++ Request ("GET " ++ text) [] :: tail)%list
               /\ filter is_read_call tail = []).
    { destruct (request w ("GET " ++ text) []) as [rr|message];
        [destruct (get_prop (data rr) "id") as [runId|message];
         [destruct (Js.template runId) as [shown|message]|]|].
      - eexists. rewrite (run_ok _ _ Htry). unfold upto.
        rewrite <- ?app_assoc. split; reflexivity.
      - exists (catch_block message). rewrite (run_throw _ _ _ Htry).
        unfold upto. rewrite <- ?app_assoc. split; [reflexivity|].
        apply catch_block_no_read.
      - exists (catch_block message). rewrite (run_throw _ _ _ Htry).
        unfold upto. rewrite <- ?app_assoc. split; [reflexivity|].
        apply catch_block_no_read.
      - exists (catch_block message). rewrite (run_throw _ _ _ Htry).
        unfold upto. rewrite <- ?app_assoc. split; [reflexivity|].
        apply catch_block_no_read. }
    destruct Hshape as (tail & -> & Htail).
    rewrite upto_no_read. cbn [filter is_read_call].
    now rewrite (prefix_append "GET " text), Htail.
  - intros message Hthrow. rewrite Hthrow in Htry.
    assert (Hrun : run w = banner w :: (sofar ++ catch_block message)%list).
    { rewrite (run_throw _ _ _ Htry). unfold upto.
      now rewrite <- ?app_assoc, ?app_nil_r. }
    split; [exact Hrun|]. rewrite Hrun. split.
    + rewrite upto_no_read. apply catch_block_no_read.
    + rewrite upto_select; try reflexivity.
      * destruct (catch_block_verdict message) as (v & -> & _ & Hv).
        cbn [filter]. now rewrite Hv.
      * intros e He. now destruct e.
Qed.

End Correlation.

Lemma bodyless_dispatch_fails_witness :
  failed (run Edge.no_body) = true
  /\ filter is_any_output (run Edge.no_body) = []
  /\ filter is_read_call (run Edge.no_body) = []
  /\ filter is_dispatch_call (run Edge.no_body)
     = [Request "POST /repos/octo/demo/actions/workflows/2/dispatches"
          [("ref", JStr "refs/heads/main"); ("inputs", JObj [])]].
Proof.
  assert (HD : Dispatched Edge.no_body (JObj []) Sample.catalog
                 [PageRequest Edge.params 1] Sample.deploy
                 (Ok {| status := 204; data := JUndefined |}))
    by (repeat split).
  destruct (bodyless_dispatch_fails Edge.no_body (JObj []) Sample.catalog
              [PageRequest Edge.params 1] Sample.deploy
              {| status := 204; data := JUndefined |} HD
              (or_introl eq_refl))
    as (Hf & Ho & Hr & Hd & _).
  repeat split; assumption.
Defined.

Lemma correlated_run_witness :
  run Edge.defaults
  = [ Info "🏃 Workflow Dispatch Action v1.0.0";
      PageRequest Edge.params 1;
      Debug "### START List Workflows response data";
      DebugWorkflows Sample.catalog;
      Debug "### END:  List Workflows response data";
      Log "🔎 Found workflow, id: 2, name: deploy, path: .github/workflows/deploy.yml";
      Log "🚀 Calling GitHub API to dispatch workflow...";
      Request "POST /repos/octo/demo/actions/workflows/2/dispatches"
        [("ref", JStr "refs/heads/main"); ("inputs", JObj [])];
      Request "GET https://api.example/runs-collection" [];
      Log "Workflow run ID: 555";
      SetOutput "runId" (JNum 555);
      Info "🏆 API response status: 200";
      SetOutput "workflowId" (JNum 2) ]
  /\ failed (run Edge.defaults) = false.
Proof.
  assert (HD : Dispatched Edge.defaults (JObj []) Sample.catalog
                 [PageRequest Edge.params 1] Sample.deploy
                 (Ok Sample.queued)) by (repeat split).
  exact (correlated_run Edge.defaults (JObj []) Sample.catalog
           [PageRequest Edge.params 1] Sample.deploy Sample.queued HD
           (JStr Sample.runs_url) (JNum 555)
           "GET https://api.example/runs-collection" "555"
           Sample.run_record
           eq_refl eq_refl eq_refl eq_refl eq_refl eq_refl).
Defined.

Lemma run_record_without_id_witness :
  filter is_any_output (run Edge.no_run_id)
  = [SetOutput "runId" JUndefined; SetOutput "workflowId" (JNum 2)]
  /\ failed (run Edge.no_run_id) = false.
Proof.
  assert (HD : Dispatched Edge.no_run_id (JObj []) Sample.catalog
                 [PageRequest Edge.params 1] Sample.deploy
                 (Ok Sample.queued)) by (repeat split).
  apply (run_record_without_id Edge.no_run_id (JObj []) Sample.catalog
           [PageRequest Edge.params 1] Sample.deploy Sample.queued HD
           (JStr Sample.runs_url) "GET https://api.example/runs-collection"
           {| status := 200; data := JObj [] |} []);
    try reflexivity.
  intros v [].
Defined.

Lemma failed_correlation_sets_nothing_witness :
  run Edge.read_fails
  = [ Info "🏃 Workflow Dispatch Action v1.0.0";
      PageRequest Edge.params 1;
      Debug "### START List Workflows response data";
      DebugWorkflows Sample.catalog;
      Debug "### END:  List Workflows response data";
      Log "🔎 Found workflow, id: 2, name: deploy, path: .github/workflows/deploy.yml";
      Log "🚀 Calling GitHub API to dispatch workflow...";
      Request "POST /repos/octo/demo/actions/workflows/2/dispatches"
        [("ref", JStr "refs/heads/main"); ("inputs", JObj [])];
      Request "GET https://api.example/runs-collection" [];
      SetFailed "Not Found" ]
  /\ filter is_any_output (run Edge.read_fails) = [].
Proof.
  assert (HD : Dispatched Edge.read_fails (JObj []) Sample.catalog
                 [PageRequest Edge.params 1] Sample.deploy
                 (Ok Sample.queued)) by (repeat split).
  destruct (failed_correlation_sets_nothing Edge.read_fails (JObj [])
              Sample.catalog [PageRequest Edge.params 1] Sample.deploy
              Sample.queued HD (JStr Sample.runs_url)
              "GET https://api.example/runs-collection" "Not Found"
              eq_refl eq_refl eq_refl (or_introl eq_refl))
    as (Hrun & Hout & _).
  split; [exact Hrun | exact Hout].
Defined.

Lemma truthy_url_is_read_witness :
  filter is_read_call (run Edge.numeric_url) = [Request "GET 7" []]
  /\ filter is_read_call (run Edge.opaque_url) = []
  /\ failed (run Edge.opaque_url) = true.
Proof.
  assert (HD : Dispatched Edge.numeric_url (JObj []) Sample.catalog
                 [PageRequest Edge.params 1] Sample.deploy
                 (Ok {| status := 200;
                        data := JObj [("status", JStr "queued");
                                      ("workflow_url", JNum 7)] |}))
    by (repeat split).
  assert (HO : Dispatched Edge.opaque_url (JObj []) Sample.catalog
                 [PageRequest Edge.params 1] Sample.deploy
                 (Ok {| status := 200;
                        data := JObj [("status", JStr "queued");
                                      ("workflow_url",
                                       JObj [("toString", JStr "runs")])] |}))
    by (repeat split).
  split.
  - exact (proj1 (truthy_url_is_read Edge.numeric_url (JObj [])
                    Sample.catalog [PageRequest Edge.params 1]
                    Sample.deploy _ HD (JNum 7) eq_refl eq_refl eq_refl)
             "7" eq_refl).
  - destruct (proj2 (truthy_url_is_read Edge.opaque_url (JObj [])
                       Sample.catalog [PageRequest Edge.params 1]
                       Sample.deploy _ HO
                       (JObj [("toString", JStr "runs")])
                       eq_refl eq_refl eq_refl)
                Js.no_primitive eq_refl) as (Hrun & Hread & _).
    split; [exact Hread|]. rewrite Hrun. reflexivity.
Defined.
